(** * Offline-aware state synchronisation of the satellite hooks

    A shallow embedding of the two React hooks of the shared satellite
    module:

    - [useEdgeMemory] (src/satellites/shared/useEdgeMemory.ts): per-user
      memory, knowledge and session state, synchronised with the
      [edge-agent-memory] function and mirrored into [localStorage];
    - [useDualHemisphere] (DualHemisphereCore): the federation health check
      and the failover to the [sovereign-fallback] function.

    The hooks are asynchronous, stateful and exception-raising.  They are
    embedded in a state-and-exception monad over a world that holds the hook
    state, the browser's [localStorage], the log of remote invocations and a
    millisecond clock.  The remote side is an arbitrary, history-dependent
    oracle ([Backend]).  Operations are run one after the other: every call
    sees the state left by the previous one, which is what the functional
    [setState (prev => ...)] updaters of the source give when renders happen
    between calls.

    Two things that React does are part of the embedding of
    [useDualHemisphere].  Its callbacks close over the [localMemory] of the
    render that created them: they are embedded with that value as a
    parameter ([process_of], [processSovereign_of]), and [process] and
    [processSovereign] stand for the callbacks of the latest render.  And an
    updater handed to a state setter is run when React renders, not when it
    is queued: an updater that raises does so in the render, which the
    cells record. *)

From Stdlib Require Import PrimFloat NArith ZArith.
From stdpp Require Import gmap strings list.
From Stdlib Require Import FloatAxioms SpecFloat.

Set Default Proof Using "Type".
(* The decimal literals of the source (0.6, 0.8, ...) denote the nearest
   binary64 value, in JavaScript as here. *)
#[local] Set Warnings "-inexact-float".
Local Open Scope N_scope.
Local Open Scope nat_scope.

(** ** JavaScript primitives used by the hooks *)

(** [l.slice(-n)]: the last [n] elements (the whole array when it is
    shorter). *)
Definition slice_last {A : Type} (n : nat) (l : list A) : list A :=
  drop (length l - n) l.

(** [arr[arr.length - 1]]: [undefined] ([None]) on the empty array. *)
Definition last_elem {A : Type} (l : list A) : option A := last l.

(** [a > b] on numbers. *)
Definition num_gt (a b : float) : bool := PrimFloat.ltb b a.

(** Truthiness of a number: [0], [-0] and [NaN] are falsy. *)
Definition num_truthy (x : float) : bool :=
  negb (PrimFloat.is_zero x || PrimFloat.is_nan x).

(** [x || d] for an optional number. *)
Definition num_or (x : option float) (d : float) : float :=
  match x with
  | Some f => if num_truthy f then f else d
  | None => d
  end.

(** [x || d] for an optional count. *)
Definition count_or (x : option nat) (d : nat) : nat :=
  match x with
  | Some (S n) => S n
  | _ => d
  end.

(** [x || ''] for an optional string (the empty string is falsy, and is
    the default as well). *)
Definition str_or_empty (x : option string) : string := default ""%string x.

(** Values typed [unknown] in the source: JSON values. *)
#[local] Unset Elimination Schemes.
Inductive Json : Type :=
| JNull
| JBool (b : bool)
| JNum (x : float)
| JStr (s : string)
| JArr (items : list Json)
| JObj (fields : list (string * Json)).
#[local] Set Elimination Schemes.

(** Exceptions that the embedded code can see. *)
Inductive Exn : Type :=
| FetchError (msg : string)      (* the promise of [invoke] rejects *)
| FunctionsError (msg : string)  (* the [error] member, rethrown *)
| TypeError                      (* member access on [null] *)
| SyntaxError                    (* [JSON.parse] on a corrupt entry *)
| QuotaExceededError.            (* [localStorage.setItem] *)

(** ** Data model *)

(** Time stamps ([Date]) are milliseconds. *)
Abbreviation Time := N (only parsing).

Record UserMemory := {
  content : string;
  memoryType : string;
  importance : string;
  confidence : float;
  topicTags : option (list string)
}.

(** [Omit<UserMemory, 'confidence'>], the argument of [storeMemory]. *)
Record MemoryInput := {
  in_content : string;
  in_memoryType : string;
  in_importance : string;
  in_topicTags : option (list string)
}.

(** [{ ...memory, confidence: c }]. *)
Definition with_confidence (memory : MemoryInput) (c : float) : UserMemory :=
  {| content := in_content memory;
     memoryType := in_memoryType memory;
     importance := in_importance memory;
     confidence := c;
     topicTags := in_topicTags memory |}.

(** One entry of [UserKnowledge].  [k_confidence] is [None] when the source
    stores [undefined] (the last element of an empty trajectory). *)
Record KnowledgeEntry := {
  k_value : Json;
  k_confidence : option float;
  k_observations : nat;
  k_type : string
}.

Abbreviation UserKnowledge := (gmap string KnowledgeEntry) (only parsing).

Record SessionState := {
  conversationSummary : option string;
  activeContext : gmap string Json;
  pendingTopics : list string;
  communicationStyle : string;
  verbosityPreference : string;
  totalInteractions : Z;
  totalSessions : Z
}.

(** [Partial<SessionState>]: [None] is an absent key.  The one optional
    member of [SessionState] may also be present with value [undefined]. *)
Record SessionUpdate := {
  u_conversationSummary : option (option string);
  u_activeContext : option (gmap string Json);
  u_pendingTopics : option (list string);
  u_communicationStyle : option string;
  u_verbosityPreference : option string;
  u_totalInteractions : option Z;
  u_totalSessions : option Z
}.

(** [{ ...session, ...updates }]. *)
Definition merge_session (s : SessionState) (u : SessionUpdate) : SessionState :=
  {| conversationSummary := default (conversationSummary s) (u_conversationSummary u);
     activeContext := default (activeContext s) (u_activeContext u);
     pendingTopics := default (pendingTopics s) (u_pendingTopics u);
     communicationStyle := default (communicationStyle s) (u_communicationStyle u);
     verbosityPreference := default (verbosityPreference s) (u_verbosityPreference u);
     totalInteractions := default (totalInteractions s) (u_totalInteractions u);
     totalSessions := default (totalSessions s) (u_totalSessions u) |}.

Record EdgeMemoryState := {
  memories : list UserMemory;
  knowledge : UserKnowledge;
  session : option SessionState;
  isReturningUser : bool;
  greeting : string;
  isLoading : bool;
  isOnline : bool;
  lastSyncAt : option Time
}.

(** [Partial<EdgeMemoryState>], and the JSON object kept in the local cache
    (which adds [savedAt]).  [None] is an absent key; [session] and
    [lastSyncAt] can be present with value [null]. *)
Record Snapshot := {
  s_memories : option (list UserMemory);
  s_knowledge : option UserKnowledge;
  s_session : option (option SessionState);
  s_isReturningUser : option bool;
  s_greeting : option string;
  s_isLoading : option bool;
  s_isOnline : option bool;
  s_lastSyncAt : option (option Time);
  s_savedAt : option Time
}.

(** The empty object [{}]. *)
Definition empty_snapshot : Snapshot :=
  {| s_memories := None; s_knowledge := None; s_session := None;
     s_isReturningUser := None; s_greeting := None; s_isLoading := None;
     s_isOnline := None; s_lastSyncAt := None; s_savedAt := None |}.

(** [{ ...prev, ...data }] on a state. *)
Definition apply_snapshot (data : Snapshot) (prev : EdgeMemoryState) : EdgeMemoryState :=
  {| memories := default (memories prev) (s_memories data);
     knowledge := default (knowledge prev) (s_knowledge data);
     session := default (session prev) (s_session data);
     isReturningUser := default (isReturningUser prev) (s_isReturningUser data);
     greeting := default (greeting prev) (s_greeting data);
     isLoading := default (isLoading prev) (s_isLoading data);
     isOnline := default (isOnline prev) (s_isOnline data);
     lastSyncAt := default (lastSyncAt prev) (s_lastSyncAt data) |}.

(** [{ ...parsed, ...data, savedAt }] on cached objects. *)
Definition merge_snapshot (parsed data : Snapshot) (savedAt : Time) : Snapshot :=
  {| s_memories := s_memories data ∪ s_memories parsed;
     s_knowledge := s_knowledge data ∪ s_knowledge parsed;
     s_session := s_session data ∪ s_session parsed;
     s_isReturningUser := s_isReturningUser data ∪ s_isReturningUser parsed;
     s_greeting := s_greeting data ∪ s_greeting parsed;
     s_isLoading := s_isLoading data ∪ s_isLoading parsed;
     s_isOnline := s_isOnline data ∪ s_isOnline parsed;
     s_lastSyncAt := s_lastSyncAt data ∪ s_lastSyncAt parsed;
     s_savedAt := Some savedAt |}.

(** A string held by [localStorage], as the hook can tell it apart: the
    empty string (which is falsy, and which [JSON.parse] rejects), a
    non-empty text that [JSON.parse] rejects, or the JSON text of an object,
    seen as the snapshot it parses to.  [JSON.stringify] of a snapshot is
    [Stored]; the data stored by the hook comes from a parsed JSON response,
    so the round trip through text loses nothing.  A JSON text that is not
    that of an object ([null], a number, ...) has no value here: the hook
    writes objects only. *)
Inductive Item : Type :=
| Blank
| Corrupt
| Stored (c : Snapshot).

(** Truthiness of a string: only the empty one is falsy. *)
Definition text_truthy (text : Item) : bool :=
  match text with
  | Blank => false
  | _ => true
  end.

(** A turn of the short-term conversation window.  [t_content] is [None]
    when the source stores an [undefined] response. *)
Record Turn := {
  t_role : string;
  t_content : option string
}.

Inductive GovernanceMode := Standard | Strict | Autonomous.
Inductive Hemisphere := Alpha | Omega | Fused.

Record ReasoningResult := {
  response : string;
  r_confidence : float;
  hemisphere : Hemisphere;
  reasoning_trace : list string;
  governance_validated : bool
}.

(** ** Remote functions

    Bodies of the [supabase.functions.invoke] calls of the two hooks. *)

Inductive Request : Type :=
| ReqRehydrate (userId satelliteId sessionId : string)
| ReqStoreMemory (userId satelliteId sessionId : string)
    (memoryType content importance : string)
    (topicTags : option (list string)) (sourceMode : string)
| ReqEvolveKnowledge (userId satelliteId : string)
    (knowledgeType knowledgeKey : string) (knowledgeValue : Json)
| ReqSyncSession (userId satelliteId sessionId : string) (data : SessionUpdate)
| ReqExtractInsights (userId satelliteId : string)
    (conversationHistory : list Turn)
| ReqPing (satelliteId : string)
| ReqChat (query sessionId : string) (mode : string)
    (governanceMode : GovernanceMode) (satelliteId : string)
| ReqSovereign (message sessionId satelliteId : string)
    (governanceMode : GovernanceMode) (includeGRLS : bool)
    (localMemory : list Turn).

(** What the hooks do to the outside, in order: remote invocations (with the
    function name), and the calls of the [setIsSovereign] setter, which
    switch the exported mode flag. *)
Inductive Event : Type :=
| Invoke (fn : string) (body : Request)
| SetIsSovereign (b : bool).

Definition is_invoke_of (fn : string) (e : Event) : bool :=
  match e with
  | Invoke f _ => bool_decide (f = fn)
  | SetIsSovereign _ => false
  end.

(** Number of invocations of the function [fn] in a log. *)
Definition count_invokes (fn : string) (l : list Event) : nat :=
  length (filter (fun e => is_invoke_of fn e = true) l).

(** The contexts ([localMemory]) that the sovereign requests of a log
    carry, in order. *)
Definition contexts_sent (l : list Event) : list (list Turn) :=
  omap (fun e =>
          match e with
          | Invoke _ (ReqSovereign _ _ _ _ _ context) => Some context
          | _ => None
          end) l.

(** Response payloads, with the members the hooks read.  An [option] member
    may be missing from the response. *)
Record RehydrateContext := {
  ctx_memories : option (list UserMemory);
  ctx_knowledge : option UserKnowledge;
  ctx_session : option SessionState
}.

Record RehydrateData := {
  rh_context : option RehydrateContext;
  rh_isReturningUser : bool;
  rh_greeting : string
}.

Record Evolved := {
  confidence_trajectory : option (list float);
  observations_count : option nat
}.

Record EvolveData := { evolved : option Evolved }.

Record Insight := {
  i_key : string;
  i_value : Json;
  i_confidence : float
}.

Record Fact := {
  f_content : string;
  f_importance : string
}.

Record Insights := {
  preferences : option (list Insight);
  patterns : option (list Insight);
  facts : option (list Fact)
}.

Record ExtractData := {
  success : bool;
  insights : option Insights
}.

Record ChatData := {
  c_response : option string;
  c_confidence : option float;
  c_dominant_hemisphere : option Hemisphere;
  c_reasoning_trace : option (list string);
  c_governance_validated : option bool
}.

Record SovereignData := {
  sv_response : option string;
  sv_confidence : option float;
  sv_reasoning_trace : option (list string);
  sv_governance_validated : option bool
}.

(** How an invocation settles: the promise rejects, or it resolves to
    [{ data, error }] ([data] may be [null], [error] is [null] or an error
    object). *)
Inductive Settled (D : Type) : Type :=
| Rejects (e : Exn)
| Resolves (data : option D) (error : option string).
Arguments Rejects {D} e.
Arguments Resolves {D} data error.

(** A reply settles after [latency] milliseconds. *)
Record Reply (D : Type) := {
  latency : N;
  settled : Settled D
}.
Arguments latency {D} _.
Arguments settled {D} _.

(** The payload of a settled invocation that the hooks can use: the promise
    resolved, without an [error] and with [data].  Otherwise the promise
    rejected, or [error] is set, or reading a member of the [null] data
    raises. *)
Definition delivered {D} (s : Settled D) : option D :=
  match s with
  | Resolves (Some d) None => Some d
  | _ => None
  end.

(** The invocation resolved to [{ data: null, error: null }]: nothing to
    rethrow, and nothing to read. *)
Definition resolves_empty {D} (s : Settled D) : bool :=
  match s with
  | Resolves None None => true
  | _ => false
  end.

(** The invocation failed as the caller can see it: the promise rejected,
    or it resolved with the [error] member set. *)
Definition reports_failure {D} (s : Settled D) : bool :=
  match s with
  | Rejects _ => true
  | Resolves _ (Some _) => true
  | Resolves _ None => false
  end.

(** The remote side: for each function, the reply as a function of the log
    up to and including the invocation being answered. *)
Record Backend := {
  on_rehydrate : list Event -> Reply RehydrateData;
  on_store_memory : list Event -> Reply unit;
  on_evolve_knowledge : list Event -> Reply EvolveData;
  on_sync_session : list Event -> Reply unit;
  on_extract_insights : list Event -> Reply ExtractData;
  on_ping : list Event -> Reply unit;
  on_chat : list Event -> Reply ChatData;
  on_sovereign : list Event -> Reply SovereignData
}.

(** ** The world and its monad *)

Record World (S : Type) := {
  hook : S;                          (* the hook's [useState]/[useRef] cells *)
  localStorage : gmap string Item;
  storageFull : bool;                (* [setItem] raises a quota error *)
  log : list Event;
  clock : Time
}.
Arguments hook {S} _.
Arguments localStorage {S} _.
Arguments storageFull {S} _.
Arguments log {S} _.
Arguments clock {S} _.

Inductive Res (A : Type) : Type :=
| Val (a : A)
| Raise (e : Exn).
Arguments Val {A} a.
Arguments Raise {A} e.

Definition M (S A : Type) : Type := World S -> Res A * World S.

Definition ret {S A} (a : A) : M S A := fun w => (Val a, w).

Definition bind {S A B} (m : M S A) (k : A -> M S B) : M S B :=
  fun w =>
    match m w with
    | (Val a, w') => k a w'
    | (Raise e, w') => (Raise e, w')
    end.

Definition throw {S A} (e : Exn) : M S A := fun w => (Raise e, w).

(** [try { body } catch (e) { handler }]. *)
Definition try_catch {S A} (body : M S A) (handler : Exn -> M S A) : M S A :=
  fun w =>
    match body w with
    | (Val a, w') => (Val a, w')
    | (Raise e, w') => handler e w'
    end.

Declare Scope hook_scope.
Delimit Scope hook_scope with hook.
Notation "x <- m ;; k" := (bind m (fun x => k))
  (at level 100, m at next level, right associativity) : hook_scope.
Notation "m ;; k" := (bind m (fun _ => k))
  (at level 100, right associativity) : hook_scope.
Local Open Scope hook_scope.

(** [for (const x of xs) { await body(x) }]. *)
Fixpoint for_of {S A} (xs : list A) (body : A -> M S unit) : M S unit :=
  match xs with
  | [] => ret tt
  | x :: rest => body x ;; for_of rest body
  end.

(** Read and update the hook's cells. *)
Definition get {S} : M S S := fun w => (Val (hook w), w).

Definition modify {S} (f : S -> S) : M S unit :=
  fun w =>
    (Val tt, {| hook := f (hook w); localStorage := localStorage w;
                storageFull := storageFull w; log := log w; clock := clock w |}).

(** [new Date()]. *)
Definition Date_now {S} : M S Time := fun w => (Val (clock w), w).

(** Member access on [data]: a [TypeError] when [data] is [null]. *)
Definition deref {S D} (data : option D) : M S D :=
  match data with
  | Some d => ret d
  | None => throw TypeError
  end.

(** The same access in a plain function, such as a state updater. *)
Definition member {D} (data : option D) : Res D :=
  match data with
  | Some d => Val d
  | None => Raise TypeError
  end.

Definition emit {S} (e : Event) : M S unit :=
  fun w =>
    (Val tt, {| hook := hook w; localStorage := localStorage w;
                storageFull := storageFull w; log := log w ++ [e];
                clock := clock w |}).

(** [localStorage.getItem(key)]. *)
Definition getItem {S} (key : string) : M S (option Item) :=
  fun w => (Val (localStorage w !! key), w).

(** [localStorage.setItem(key, text)]. *)
Definition setItem {S} (key : string) (text : Item) : M S unit :=
  fun w =>
    if storageFull w then (Raise QuotaExceededError, w)
    else
      (Val tt, {| hook := hook w; localStorage := <[key := text]> (localStorage w);
                  storageFull := storageFull w; log := log w; clock := clock w |}).

Definition JSON_parse {S} (text : Item) : M S Snapshot :=
  match text with
  | Blank | Corrupt => throw SyntaxError
  | Stored c => ret c
  end.

Definition JSON_stringify (c : Snapshot) : Item := Stored c.

(** An [AbortController] whose [abort()] is scheduled by [setTimeout]: its
    signal fires [abort_after] milliseconds from now. *)
Record AbortController := { abort_after : N }.

Section Invoke.
Variable backend : Backend.

(** [await supabase.functions.invoke(fn, { body })], with the [signal]
    option when one is passed.  The invocation is logged, the reply is
    asked from the backend, and the clock advances by the time waited.
    With a signal that fires before the reply, the promise rejects at
    that moment instead. *)
Definition invoke {S D} (ask : Backend -> list Event -> Reply D)
    (fn : string) (body : Request) (signal : option AbortController)
  : M S (option D * option string) :=
  fun w =>
    let history := log w ++ [Invoke fn body] in
    let reply := ask backend history in
    let aborted :=
      match signal with
      | Some c => N.ltb (abort_after c) (latency reply)
      | None => false
      end in
    let waited :=
      match signal with
      | Some c => N.min (abort_after c) (latency reply)
      | None => latency reply
      end in
    let w' := {| hook := hook w; localStorage := localStorage w;
                 storageFull := storageFull w; log := history;
                 clock := (clock w + waited)%N |} in
    if aborted then (Raise (FetchError "AbortError"), w')
    else
      match settled reply with
      | Rejects e => (Raise e, w')
      | Resolves data error => (Val (data, error), w')
      end.
End Invoke.

(** A computation that leaves the store's quota condition alone. *)
Definition keeps_quota {S A} (m : M S A) : Prop :=
  ∀ w, storageFull (m w).2 = storageFull w.

(** A computation that only adds to the log, and whose sovereign requests
    all carry the context [context]. *)
Definition sends_only {S A} (context : list Turn) (m : M S A) : Prop :=
  ∀ w, ∃ events, log (m w).2 = log w ++ events ∧
    Forall (eq context) (contexts_sent events).

(** ** useEdgeMemory *)

Module EdgeMemory.

(** The hook's cells: the [useState] state and the [userIdRef] ref (the
    id of the signed-in user, a non-empty string, or [null]). *)
Record Cells := {
  state : EdgeMemoryState;
  userIdRef : option string
}.

Definition LOCAL_STORAGE_KEY : string := "edge_memory_cache".

(** A record as [storeMemory] keeps it locally. *)
Definition kept (memory : MemoryInput) : UserMemory :=
  with_confidence memory 0.5%float.

(** The state passed to [useState]. *)
Definition initial_state : EdgeMemoryState :=
  {| memories := []; knowledge := ∅; session := None;
     isReturningUser := false; greeting := "Hello";
     isLoading := true; isOnline := true; lastSyncAt := None |}.

Section Hook.
Variable backend : Backend.
Variable satelliteId : string.
Variable sessionId : option string.
(** The value [crypto.randomUUID()] gives when the hook mounts. *)
Variable randomUUID : string.

Definition currentSessionId : string := default randomUUID sessionId.

Definition cache_key : string :=
  (LOCAL_STORAGE_KEY ++ "_" ++ satelliteId)%string.

Definition setState (f : EdgeMemoryState -> EdgeMemoryState) : M Cells unit :=
  modify (fun c => {| state := f (state c); userIdRef := userIdRef c |}).

Definition set_memories (l : list UserMemory) (prev : EdgeMemoryState) :=
  {| memories := l; knowledge := knowledge prev; session := session prev;
     isReturningUser := isReturningUser prev; greeting := greeting prev;
     isLoading := isLoading prev; isOnline := isOnline prev;
     lastSyncAt := lastSyncAt prev |}.

Definition set_knowledge (k : UserKnowledge) (prev : EdgeMemoryState) :=
  {| memories := memories prev; knowledge := k; session := session prev;
     isReturningUser := isReturningUser prev; greeting := greeting prev;
     isLoading := isLoading prev; isOnline := isOnline prev;
     lastSyncAt := lastSyncAt prev |}.

Definition set_session (s : option SessionState) (prev : EdgeMemoryState) :=
  {| memories := memories prev; knowledge := knowledge prev; session := s;
     isReturningUser := isReturningUser prev; greeting := greeting prev;
     isLoading := isLoading prev; isOnline := isOnline prev;
     lastSyncAt := lastSyncAt prev |}.

(** [{ ...prev, isOnline: false, isLoading: false }]. *)
Definition set_offline (prev : EdgeMemoryState) :=
  {| memories := memories prev; knowledge := knowledge prev;
     session := session prev;
     isReturningUser := isReturningUser prev; greeting := greeting prev;
     isLoading := false; isOnline := false;
     lastSyncAt := lastSyncAt prev |}.

(** The updater of [loadFromLocalStorage]. *)
Definition load_cached (parsed : Snapshot) (prev : EdgeMemoryState) :=
  {| memories := default [] (s_memories parsed);
     knowledge := default ∅ (s_knowledge parsed);
     session := default None (s_session parsed);
     isReturningUser := isReturningUser prev; greeting := greeting prev;
     isLoading := false; isOnline := false;
     lastSyncAt := lastSyncAt prev |}.

Definition loadFromLocalStorage : M Cells unit :=
  try_catch
    (cached <- getItem cache_key ;;
     match cached with
     | Some text =>
         if text_truthy text then
           parsed <- JSON_parse text ;;
           setState (load_cached parsed)
         else ret tt
     | None => ret tt
     end)
    (fun _ => ret tt).

Definition saveToLocalStorage (data : Snapshot) : M Cells unit :=
  try_catch
    (existing <- getItem cache_key ;;
     parsed <- match existing with
               | Some text =>
                   if text_truthy text then JSON_parse text
                   else ret empty_snapshot
               | None => ret empty_snapshot
               end ;;
     savedAt <- Date_now ;;
     let updated := merge_snapshot parsed data savedAt in
     setItem cache_key (JSON_stringify updated))
    (fun _ => ret tt).

(** The [newState] object of [rehydrateInternal]. *)
Definition rehydrated (data : RehydrateData) (now : Time) : Snapshot :=
  {| s_memories := Some (default [] (rh_context data ≫= ctx_memories));
     s_knowledge := Some (default ∅ (rh_context data ≫= ctx_knowledge));
     s_session := Some (rh_context data ≫= ctx_session);
     s_isReturningUser := Some (rh_isReturningUser data);
     s_greeting := Some (rh_greeting data);
     s_isLoading := Some false;
     s_isOnline := Some true;
     s_lastSyncAt := Some (Some now);
     s_savedAt := None |}.

Definition rehydrateInternal (userId : string) : M Cells unit :=
  try_catch
    (r <- invoke backend on_rehydrate "edge-agent-memory"
            (ReqRehydrate userId satelliteId currentSessionId) None ;;
     let '(data, error) := r in
     match error with
     | Some _ =>
         loadFromLocalStorage ;;
         setState set_offline
     | None =>
         d <- deref data ;;
         now <- Date_now ;;
         let newState := rehydrated d now in
         setState (apply_snapshot newState) ;;
         saveToLocalStorage newState
     end)
    (fun _ =>
       loadFromLocalStorage ;;
       setState set_offline).

Definition rehydrate : M Cells unit :=
  c <- get ;;
  match userIdRef c with
  | Some userId => rehydrateInternal userId
  | None => loadFromLocalStorage
  end.

(** [[...prev.memories.slice(-49), { ...memory, confidence: 0.5 }]]. *)
Definition append_memory (memory : MemoryInput) (prev : EdgeMemoryState) :=
  set_memories
    (slice_last 49 (memories prev) ++ [with_confidence memory 0.5%float])
    prev.

(** The function the loop over the facts of [extractInsights] hands to
    [storeMemory]. *)
Definition insight_record (fact : Fact) : MemoryInput :=
  {| in_memoryType := "insight";
     in_content := f_content fact;
     in_importance := f_importance fact;
     in_topicTags := Some [] |}.

(** Request bodies. *)
Definition store_request (userId : string) (online : bool)
    (memory : MemoryInput) : Request :=
  ReqStoreMemory userId satelliteId currentSessionId
    (in_memoryType memory) (in_content memory)
    (in_importance memory) (in_topicTags memory)
    (if online then "federated" else "sovereign").

Definition evolve_request (userId : string) (type : string)
    (i : Insight) : Request :=
  ReqEvolveKnowledge userId satelliteId type (i_key i) (i_value i).

Definition storeMemory (memory : MemoryInput) : M Cells unit :=
  c <- get ;;
  match userIdRef c with
  | None => setState (append_memory memory)
  | Some userId =>
      try_catch
        (invoke backend on_store_memory "edge-agent-memory"
           (store_request userId (isOnline (state c)) memory) None ;;
         setState (append_memory memory))
        (fun _ => setState (append_memory memory))
  end.

Definition put_knowledge (key : string) (e : KnowledgeEntry)
    (prev : EdgeMemoryState) :=
  set_knowledge (<[key := e]> (knowledge prev)) prev.

Definition evolveKnowledge (key : string) (value : Json) (type : string)
  : M Cells unit :=
  c <- get ;;
  match userIdRef c with
  | None =>
      setState (put_knowledge key
        {| k_value := value; k_confidence := Some 0.5%float;
           k_observations := 1; k_type := type |})
  | Some userId =>
      try_catch
        (r <- invoke backend on_evolve_knowledge "edge-agent-memory"
                (ReqEvolveKnowledge userId satelliteId type key value) None ;;
         match fst r ≫= evolved with
         | Some ev =>
             let trajectory := default [0.5%float] (confidence_trajectory ev) in
             let confidence := last_elem trajectory in
             setState (put_knowledge key
               {| k_value := value; k_confidence := confidence;
                  k_observations := count_or (observations_count ev) 1;
                  k_type := type |})
         | None => ret tt
         end)
        (fun _ => ret tt)
  end.

Definition updateSession (updates : SessionUpdate) : M Cells unit :=
  c <- get ;;
  match userIdRef c with
  | None => ret tt
  | Some userId =>
      try_catch
        (invoke backend on_sync_session "edge-agent-memory"
           (ReqSyncSession userId satelliteId currentSessionId updates)
           None ;;
         setState (fun prev =>
           set_session
             (match session prev with
              | Some s => Some (merge_session s updates)
              | None => None
              end) prev))
        (fun _ => ret tt)
  end.

Definition extractInsights (conversation : list Turn) : M Cells unit :=
  c <- get ;;
  match userIdRef c with
  | None => ret tt
  | Some userId =>
      if bool_decide (length conversation < 2) then ret tt
      else
        try_catch
          (r <- invoke backend on_extract_insights "edge-agent-memory"
                  (ReqExtractInsights userId satelliteId conversation)
                  None ;;
           match fst r with
           | Some data =>
               match (if success data then insights data else None) with
               | Some ins =>
                   for_of (default [] (preferences ins)) (fun pref =>
                     if num_gt (i_confidence pref) 0.6%float
                     then evolveKnowledge (i_key pref) (i_value pref) "preference"
                     else ret tt) ;;
                   for_of (default [] (patterns ins)) (fun pattern =>
                     if num_gt (i_confidence pattern) 0.5%float
                     then evolveKnowledge (i_key pattern) (i_value pattern) "behavior"
                     else ret tt) ;;
                   for_of (default [] (facts ins)) (fun fact =>
                     storeMemory (insight_record fact))
               | None => ret tt
               end
           | None => ret tt
           end)
          (fun _ => ret tt)
  end.

(** The reply the backend gives to the [rehydrate] action invoked in [w]. *)
Definition rehydrate_reply (userId : string) (w : World Cells)
  : Reply RehydrateData :=
  on_rehydrate backend
    (log w ++ [Invoke "edge-agent-memory"
                 (ReqRehydrate userId satelliteId currentSessionId)]).

(** The reply the backend gives to the [sync_session] action invoked in
    [w]. *)
Definition sync_reply (userId : string) (updates : SessionUpdate)
    (w : World Cells) : Reply unit :=
  on_sync_session backend
    (log w ++ [Invoke "edge-agent-memory"
                 (ReqSyncSession userId satelliteId currentSessionId updates)]).

(** The reply the backend gives to the [extract_insights] action invoked in
    [w]. *)
Definition extract_reply (userId : string) (conversation : list Turn)
    (w : World Cells) : Reply ExtractData :=
  on_extract_insights backend
    (log w ++ [Invoke "edge-agent-memory"
                 (ReqExtractInsights userId satelliteId conversation)]).

(** The insights whose confidence is above a threshold, in order. *)
Definition above (threshold : float) (l : list Insight) : list Insight :=
  List.filter (fun i => num_gt (i_confidence i) threshold) l.

(** The invocations that evolving the insights [l] as [type] makes. *)
Definition evolve_calls (userId : string) (type : string) (l : list Insight)
  : list Event :=
  (fun i => Invoke "edge-agent-memory" (evolve_request userId type i)) <$> l.

(** The invocations that storing the records [l] makes. *)
Definition store_calls (userId : string) (online : bool)
    (l : list MemoryInput) : list Event :=
  (fun m => Invoke "edge-agent-memory" (store_request userId online m)) <$> l.

(** The list after the records [l] are appended one by one. *)
Definition appended (l : list MemoryInput) (before : list UserMemory)
  : list UserMemory :=
  fold_left (fun acc m => slice_last 49 acc ++ [kept m]) l before.

(** What the fan-out of [extractInsights] leaves alone: the identity, the
    online flag and the cache. *)
Definition same_session (w w' : World Cells) : Prop :=
  userIdRef (hook w') = userIdRef (hook w) ∧
  isOnline (state (hook w')) = isOnline (state (hook w)) ∧
  localStorage w' = localStorage w.

(** The snapshot the local cache holds for this satellite, when there is a
    readable one. *)
Definition cached_snapshot (w : World Cells) : option Snapshot :=
  match localStorage w !! cache_key with
  | Some (Stored c) => Some c
  | _ => None
  end.

(** [saveToLocalStorage] can write: the entry, if there is one and it is
    not the empty string, parses, and the store accepts the new text. *)
Definition cache_writable (w : World Cells) : bool :=
  negb (storageFull w) &&
  match localStorage w !! cache_key with
  | Some Corrupt => false
  | _ => true
  end.

(** [userIdRef.current = user]. *)
Definition set_userId (user : option string) : M Cells unit :=
  modify (fun c => {| state := state c; userIdRef := user |}).

(** [{ ...prev, isLoading: false }]. *)
Definition set_loaded (prev : EdgeMemoryState) :=
  {| memories := memories prev; knowledge := knowledge prev;
     session := session prev;
     isReturningUser := isReturningUser prev; greeting := greeting prev;
     isLoading := false; isOnline := isOnline prev;
     lastSyncAt := lastSyncAt prev |}.

(** How [supabase.auth.getUser()] settles: the promise rejects, or it
    resolves to [{ data: { user }, error }], [user] being [null] or a user
    with an id. *)
Inductive AuthAnswer : Type :=
| AuthRejects (e : Exn)
| AuthResolves (user : option string).

(** [await supabase.auth.getUser()], destructured to [user]. *)
Definition getUser (answer : AuthAnswer) : M Cells (option string) :=
  match answer with
  | AuthRejects e => throw e
  | AuthResolves user => ret user
  end.

(** [initUser], the function the mount effect runs; [answer] is the way
    [supabase.auth.getUser()] settles.  The function has no [try]: the
    effect calls it without awaiting it, so a rejection ends it there. *)
Definition initUser (answer : AuthAnswer) : M Cells unit :=
  user <- getUser answer ;;
  match user with
  | Some id => set_userId (Some id) ;; rehydrateInternal id
  | None => ret tt
  end ;;
  setState set_loaded.

(** The listener given to [supabase.auth.onAuthStateChange]; [user] is the
    id of [session?.user], if any. The rehydration it starts is run to its
    end. *)
Definition onAuthStateChange (user : option string) : M Cells unit :=
  match user with
  | Some id => set_userId (Some id) ;; rehydrateInternal id
  | None => set_userId None ;; loadFromLocalStorage
  end.

(** [getContext()]. *)
Definition getContext : M Cells EdgeMemoryState :=
  c <- get ;; ret (state c).

(** The calls a component can make on the hook, and a listener event. *)
Inductive Call : Type :=
| CallStoreMemory (memory : MemoryInput)
| CallEvolveKnowledge (key : string) (value : Json) (type : string)
| CallUpdateSession (updates : SessionUpdate)
| CallExtractInsights (conversation : list Turn)
| CallRehydrate
| AuthStateChange (user : option string).

Definition perform (c : Call) : M Cells unit :=
  match c with
  | CallStoreMemory memory => storeMemory memory
  | CallEvolveKnowledge key value type => evolveKnowledge key value type
  | CallUpdateSession updates => updateSession updates
  | CallExtractInsights conversation => extractInsights conversation
  | CallRehydrate => rehydrate
  | AuthStateChange user => onAuthStateChange user
  end.

(** The calls that neither rehydrate nor come from the auth listener. *)
Definition is_mutation (c : Call) : bool :=
  match c with
  | CallRehydrate | AuthStateChange _ => false
  | _ => true
  end.

(** The reply the backend gives to the [evolve_knowledge] action invoked in
    [w]. *)
Definition evolve_reply (userId key : string) (value : Json) (type : string)
    (w : World Cells) : Reply EvolveData :=
  on_evolve_knowledge backend
    (log w ++ [Invoke "edge-agent-memory"
                 (ReqEvolveKnowledge userId satelliteId type key value)]).

(** [data?.evolved] of a settled invocation ([error] is not read). *)
Definition evolved_of (s : Settled EvolveData) : option Evolved :=
  match s with
  | Rejects _ => None
  | Resolves data _ => data ≫= evolved
  end.

(** [data?.success && data.insights] of a settled invocation. *)
Definition insights_of (s : Settled ExtractData) : option Insights :=
  match s with
  | Rejects _ => None
  | Resolves data _ =>
      d ← data; if success d then insights d else None
  end.

(** The world in which the hook mounts, for a given identity. *)
Definition mount (userId : option string) (storage : gmap string Item)
    (full : bool) : World Cells :=
  {| hook := {| state := initial_state; userIdRef := userId |};
     localStorage := storage; storageFull := full;
     log := []; clock := 0%N |}.

End Hook.
End EdgeMemory.

(** ** useDualHemisphere *)

Module DualHemisphere.

(** The hook's [useState] cells ([state], the animation state of the
    component, is never written by the hook and is left out). Each cell
    holds what the updates queued on it give. React runs a queued updater
    when it next renders the component, not in the call that queues it: an
    updater that raises makes that render raise. [renderError] is the error
    of the first updater of the window that raised, when there is one; the
    updates queued on the window behind it are never reached, and the
    window keeps the value of the last render. *)
Record Cells := {
  lastResult : option ReasoningResult;
  isSovereign : bool;
  localMemory : list Turn;
  renderError : option Exn
}.

Definition initial_cells : Cells :=
  {| lastResult := None; isSovereign := false; localMemory := [];
     renderError := None |}.

(** [FEDERATION_CONFIG.FEDERATION_TIMEOUT_MS] of the shared index, and the
    delay given to [setTimeout] in the health check. *)
Definition FEDERATION_TIMEOUT_MS : N := 3000.

Section Hook.
Variable backend : Backend.
Variable satelliteId : string.
Variable sessionId : option string.
(** [crypto.randomUUID()], as a function of the number of events logged
    when it is drawn. *)
Variable randomUUID : nat -> string.

Definition setLastResult (r : ReasoningResult) : M Cells unit :=
  modify (fun c => {| lastResult := Some r; isSovereign := isSovereign c;
                      localMemory := localMemory c;
                      renderError := renderError c |}).

Definition setIsSovereign (b : bool) : M Cells unit :=
  emit (SetIsSovereign b) ;;
  modify (fun c => {| lastResult := lastResult c; isSovereign := b;
                      localMemory := localMemory c;
                      renderError := renderError c |}).

(** [setLocalMemory(updater)]: the call itself never raises. *)
Definition setLocalMemory (updater : list Turn -> Res (list Turn))
  : M Cells unit :=
  modify (fun c =>
    match renderError c with
    | Some _ => c
    | None =>
        match updater (localMemory c) with
        | Val next =>
            {| lastResult := lastResult c; isSovereign := isSovereign c;
               localMemory := next; renderError := None |}
        | Raise e =>
            {| lastResult := lastResult c; isSovereign := isSovereign c;
               localMemory := localMemory c; renderError := Some e |}
        end
    end).

(** [sessionId || crypto.randomUUID()]. *)
Definition session_or_fresh : M Cells string :=
  fun w => (Val (default (randomUUID (length (log w))) sessionId), w).

(** [[...prev.slice(-9), { role: 'user', ... }, { role: 'assistant', ... }]]. *)
Definition push_exchange (query : string) (answer : option string)
    (prev : list Turn) : list Turn :=
  slice_last 9 prev ++
  [ {| t_role := "user"; t_content := Some query |};
    {| t_role := "assistant"; t_content := answer |} ].

(** The controller is created and its [abort()] scheduled after 3000 ms
    (and the timer cleared once the ping has settled), but its signal is
    not among the options given to [invoke]: no cell and no call observes
    the controller. *)
Definition checkFederationHealth : M Cells bool :=
  try_catch
    (let controller := {| abort_after := FEDERATION_TIMEOUT_MS |} in
     r <- invoke backend on_ping "neural-link-ipc" (ReqPing satelliteId) None ;;
     ret (negb (bool_decide (is_Some (snd r)))))
    (fun _ => ret false).

(** The object returned by the sovereign path. *)
Definition sovereign_result (d : SovereignData) : ReasoningResult :=
  {| response := str_or_empty (sv_response d);
     r_confidence := num_or (sv_confidence d) 0.75%float;
     hemisphere := Fused;
     reasoning_trace :=
       default ["SOVEREIGN_MODE"%string] (sv_reasoning_trace d);
     governance_validated := default true (sv_governance_validated d) |}.

(** [processSovereign] as a render creates it: the callback closes over
    the [localMemory] that this render saw, here [seen], and sends its last
    ten turns. The updater of the window is queued before the result object
    is built; it reads [data.response] when React runs it, the [return]
    reads it at once. *)
Definition processSovereign_of (seen : list Turn)
    (query : string) (governanceMode : GovernanceMode)
  : M Cells ReasoningResult :=
  sid <- session_or_fresh ;;
  r <- invoke backend on_sovereign "sovereign-fallback"
         (ReqSovereign query sid satelliteId governanceMode true
            (slice_last 10 seen)) None ;;
  let '(data, error) := r in
  match error with
  | Some e => throw (FunctionsError e)
  | None =>
      setLocalMemory (fun prev =>
        match member data with
        | Val d => Val (push_exchange query (sv_response d) prev)
        | Raise e => Raise e
        end) ;;
      d <- deref data ;;
      ret (sovereign_result d)
  end.

(** The [result] object of the primary path. *)
Definition chat_result (d : ChatData) : ReasoningResult :=
  {| response := str_or_empty (c_response d);
     r_confidence := num_or (c_confidence d) 0.8%float;
     hemisphere := default Fused (c_dominant_hemisphere d);
     reasoning_trace := default [] (c_reasoning_trace d);
     governance_validated := default true (c_governance_validated d) |}.

(** [process] as the same render creates it: it calls the
    [processSovereign] of that render. *)
Definition process_of (seen : list Turn)
    (query : string) (governanceMode : GovernanceMode)
  : M Cells ReasoningResult :=
  federationHealthy <- checkFederationHealth ;;
  if negb federationHealthy then
    setIsSovereign true ;;
    result <- processSovereign_of seen query governanceMode ;;
    setLastResult result ;;
    ret result
  else
    setIsSovereign false ;;
    try_catch
      (sid <- session_or_fresh ;;
       r <- invoke backend on_chat "chat"
              (ReqChat query sid "dual-hemisphere" governanceMode satelliteId)
              None ;;
       let '(data, error) := r in
       match error with
       | Some _ =>
           setIsSovereign true ;;
           sovereignResult <- processSovereign_of seen query governanceMode ;;
           setLastResult sovereignResult ;;
           ret sovereignResult
       | None =>
           d <- deref data ;;
           let result := chat_result d in
           setLocalMemory (fun prev =>
             Val (push_exchange query (Some (response result)) prev)) ;;
           setLastResult result ;;
           ret result
       end)
      (fun _ =>
         setIsSovereign true ;;
         sovereignResult <- processSovereign_of seen query governanceMode ;;
         setLastResult sovereignResult ;;
         ret sovereignResult).

(** The callbacks of the latest render, which has seen the window as the
    cell holds it: what a component calls when it takes [process] from the
    hook each time it renders. *)
Definition processSovereign (query : string) (governanceMode : GovernanceMode)
  : M Cells ReasoningResult :=
  c <- get ;;
  processSovereign_of (localMemory c) query governanceMode.

Definition process (query : string) (governanceMode : GovernanceMode)
  : M Cells ReasoningResult :=
  c <- get ;;
  process_of (localMemory c) query governanceMode.

Definition forceSovereign (enabled : bool) : M Cells unit :=
  setIsSovereign enabled.

Definition clearLocalMemory : M Cells unit :=
  setLocalMemory (fun _ => Val []).

(** The sovereign function answers every invocation with data or with an
    error: it never resolves to [{ data: null, error: null }]. *)
Definition never_empty : Prop :=
  ∀ history, resolves_empty (settled (on_sovereign backend history)) = false.

(** How the sovereign path ends, from the way its invocation settles. *)
Definition sovereign_outcome (s : Settled SovereignData) : Res ReasoningResult :=
  match s with
  | Rejects e => Raise e
  | Resolves _ (Some e) => Raise (FunctionsError e)
  | Resolves None None => Raise TypeError
  | Resolves (Some d) None => Val (sovereign_result d)
  end.

(** The requests made in a world [w], and the replies the backend gives to
    them. *)
Definition ping_reply (w : World Cells) : Reply unit :=
  on_ping backend (log w ++ [Invoke "neural-link-ipc" (ReqPing satelliteId)]).

Definition chat_request (query : string) (governanceMode : GovernanceMode)
    (w : World Cells) : Request :=
  ReqChat query (default (randomUUID (length (log w))) sessionId)
    "dual-hemisphere" governanceMode satelliteId.

Definition chat_reply (query : string) (governanceMode : GovernanceMode)
    (w : World Cells) : Reply ChatData :=
  on_chat backend (log w ++ [Invoke "chat" (chat_request query governanceMode w)]).

Definition sovereign_request (query : string) (governanceMode : GovernanceMode)
    (w : World Cells) : Request :=
  ReqSovereign query (default (randomUUID (length (log w))) sessionId)
    satelliteId governanceMode true (slice_last 10 (localMemory (hook w))).

Definition sovereign_reply (query : string) (governanceMode : GovernanceMode)
    (w : World Cells) : Reply SovereignData :=
  on_sovereign backend
    (log w ++ [Invoke "sovereign-fallback"
                 (sovereign_request query governanceMode w)]).

(** The world once the health check has settled, and once the mode flag has
    been set. *)
Definition pinged (w : World Cells) : World Cells :=
  (checkFederationHealth w).2.

Definition switched (b : bool) (w : World Cells) : World Cells :=
  (setIsSovereign b w).2.

(** The world once the primary function has been invoked, and once the
    sovereign path has run. *)
Definition chatted (query : string) (governanceMode : GovernanceMode)
    (w : World Cells) : World Cells :=
  (invoke backend on_chat "chat" (chat_request query governanceMode w) None w).2.

Definition fell_back (query : string) (governanceMode : GovernanceMode)
    (w : World Cells) : World Cells :=
  (processSovereign query governanceMode w).2.

(** A run of queries, each awaited before the next and asked through the
    callbacks of the latest render. *)
Definition ask_all (queries : list string) : M Cells unit :=
  for_of queries (fun q => process q Standard ;; ret tt).

(** A component that asks one query after the other, each through the
    callbacks of the latest render, and catches the failures
    ([try { await process(q, mode) } catch {}]). *)
Definition ask_each (queries : list (string * GovernanceMode)) : M Cells unit :=
  for_of queries (fun q =>
    try_catch (process q.1 q.2 ;; ret tt) (fun _ => ret tt)).

(** The health check with the controller's signal handed to the
    invocation, which is what bounds the wait. The source does not do this;
    the definition is here for comparison only. *)
Definition checkFederationHealth_with_signal : M Cells bool :=
  try_catch
    (let controller := {| abort_after := FEDERATION_TIMEOUT_MS |} in
     r <- invoke backend on_ping "neural-link-ipc" (ReqPing satelliteId)
            (Some controller) ;;
     ret (negb (bool_decide (is_Some (snd r)))))
    (fun _ => ret false).

(** The world in which the hook mounts. *)
Definition mount : World Cells :=
  {| hook := initial_cells; localStorage := ∅; storageFull := false;
     log := []; clock := 0%N |}.

End Hook.
End DualHemisphere.

(** ** DualHemisphereCore: the state of the component and its timer *)

Module Core.
Local Open Scope float_scope.

(** [Math.max(a, b)] and [Math.min(a, b)]: [NaN] when an argument is [NaN];
    of two equal arguments the first, except that [+0] is above [-0]. *)
Definition Math_max (a b : float) : float :=
  if PrimFloat.is_nan a || PrimFloat.is_nan b then nan
  else if PrimFloat.ltb a b then b
  else if PrimFloat.ltb b a then a
  else if PrimFloat.is_zero a && negb (PrimFloat.get_sign b) then b
  else a.

Definition Math_min (a b : float) : float :=
  if PrimFloat.is_nan a || PrimFloat.is_nan b then nan
  else if PrimFloat.ltb a b then a
  else if PrimFloat.ltb b a then b
  else if PrimFloat.is_zero a && PrimFloat.get_sign b then b
  else a.

Inductive AlphaReasoning := Analytical | PatternMatch | Deductive.
Inductive OmegaReasoning := Intuitive | Creative | Holistic.
Inductive Arbitration := AlphaDominant | OmegaDominant | Balanced.

Record Lobe (R : Type) := {
  activity : float;
  confidence : float;
  reasoning : R
}.
Arguments activity {R} _.
Arguments confidence {R} _.
Arguments reasoning {R} _.

Record Fusion := {
  coherence : float;
  arbitration : Arbitration
}.

(** [HemisphereState]. *)
Record HemisphereState := {
  alpha : Lobe AlphaReasoning;
  omega : Lobe OmegaReasoning;
  fusion : Fusion
}.

(** The state passed to [useState] by the component. *)
Definition initial : HemisphereState :=
  {| alpha := {| activity := 75; confidence := 0.85; reasoning := Analytical |};
     omega := {| activity := 65; confidence := 0.78; reasoning := Intuitive |};
     fusion := {| coherence := 82; arbitration := Balanced |} |}.

(** The five values [Math.random()] gives during one run of the timer's
    updater, in the order in which they are drawn. *)
Record Draws := {
  for_alpha_activity : float;
  for_omega_activity : float;
  for_coherence : float;
  for_alpha_confidence : float;
  for_omega_confidence : float
}.

(** The updater that the 2500 ms timer gives to [setState]. *)
Definition tick (prev : HemisphereState) (random : Draws) : HemisphereState :=
  let alphaActivity :=
    Math_min 100 (Math_max 40
      (activity (alpha prev) + (for_alpha_activity random - 0.5) * 8)) in
  let omegaActivity :=
    Math_min 100 (Math_max 40
      (activity (omega prev) + (for_omega_activity random - 0.5) * 10)) in
  let coherence :=
    (alphaActivity + omegaActivity) / 2 * 0.9 + for_coherence random * 10 in
  let arbitration :=
    if num_gt alphaActivity (omegaActivity + 15) then AlphaDominant
    else if num_gt omegaActivity (alphaActivity + 15) then OmegaDominant
    else Balanced in
  {| alpha :=
       {| activity := alphaActivity;
          confidence :=
            Math_min 0.99 (Math_max 0.6
              (confidence (alpha prev) +
               (for_alpha_confidence random - 0.5) * 0.05));
          reasoning := reasoning (alpha prev) |};
     omega :=
       {| activity := omegaActivity;
          confidence :=
            Math_min 0.99 (Math_max 0.5
              (confidence (omega prev) +
               (for_omega_confidence random - 0.5) * 0.08));
          reasoning := reasoning (omega prev) |};
     fusion := {| coherence := coherence; arbitration := arbitration |} |}.

(** The state after the timer has fired once for each element of [draws]. *)
Definition ticks (draws : list Draws) (s : HemisphereState) : HemisphereState :=
  fold_left tick draws s.

(** A number that lies between two bounds, or is not a number at all. *)
Definition within (lo hi x : float) : bool :=
  PrimFloat.is_nan x || (PrimFloat.leb lo x && PrimFloat.leb x hi).

(** The ranges the timer keeps the four gauges in. *)
Definition gauges_in_range (s : HemisphereState) : bool :=
  within 40 100 (activity (alpha s)) &&
  within 40 100 (activity (omega s)) &&
  within 0.6 0.99 (confidence (alpha s)) &&
  within 0.5 0.99 (confidence (omega s)).

End Core.

(** ** Concrete inputs *)

Module Scenario.

Definition rejected {D} (msg : string) : Reply D :=
  {| latency := 0; settled := Rejects (FetchError msg) |}.

Definition resolved {D} (ms : N) (d : D) : Reply D :=
  {| latency := ms; settled := Resolves (Some d) None |}.

Definition errored {D} (msg : string) : Reply D :=
  {| latency := 0; settled := Resolves None (Some msg) |}.

(** No function can be reached. *)
Definition unreachable : Backend :=
  {| on_rehydrate := fun _ => rejected "Failed to fetch";
     on_store_memory := fun _ => rejected "Failed to fetch";
     on_evolve_knowledge := fun _ => rejected "Failed to fetch";
     on_sync_session := fun _ => rejected "Failed to fetch";
     on_extract_insights := fun _ => rejected "Failed to fetch";
     on_ping := fun _ => rejected "Failed to fetch";
     on_chat := fun _ => rejected "Failed to fetch";
     on_sovereign := fun _ => rejected "Failed to fetch" |}.

(** Every function answers with a structured error. *)
Definition failing : Backend :=
  {| on_rehydrate := fun _ => errored "500";
     on_store_memory := fun _ => errored "500";
     on_evolve_knowledge := fun _ => errored "500";
     on_sync_session := fun _ => errored "500";
     on_extract_insights := fun _ => errored "500";
     on_ping := fun _ => errored "500";
     on_chat := fun _ => errored "500";
     on_sovereign := fun _ => errored "500" |}.

Definition note : MemoryInput :=
  {| in_content := "likes tea"; in_memoryType := "fact";
     in_importance := "low"; in_topicTags := None |}.

Definition remembered : UserMemory :=
  {| content := "met in Oslo"; memoryType := "fact"; importance := "high";
     confidence := 0.9%float; topicTags := Some ["travel"%string] |}.

Definition a_session : SessionState :=
  {| conversationSummary := None; activeContext := ∅; pendingTopics := [];
     communicationStyle := "casual"; verbosityPreference := "short";
     totalInteractions := 3; totalSessions := 1 |}.

(** What the [rehydrate] action answers in [restoring]. *)
Definition restored : RehydrateData :=
  {| rh_context := Some {| ctx_memories := Some [remembered];
                           ctx_knowledge := None;
                           ctx_session := Some a_session |};
     rh_isReturningUser := true;
     rh_greeting := "Welcome back" |}.

(** The memory function answers every action; [rehydrate] takes 40 ms. *)
Definition restoring : Backend :=
  {| on_rehydrate := fun _ => resolved 40 restored;
     on_store_memory := fun _ => resolved 5 tt;
     on_evolve_knowledge := fun _ => resolved 5 {| evolved := None |};
     on_sync_session := fun _ => resolved 5 tt;
     on_extract_insights := fun _ =>
       resolved 5 {| success := false; insights := None |};
     on_ping := fun _ => rejected "Failed to fetch";
     on_chat := fun _ => rejected "Failed to fetch";
     on_sovereign := fun _ => rejected "Failed to fetch" |}.

(** A signed-in user stores one record, with no cache and no network. *)
Definition after_one_store : World EdgeMemory.Cells :=
  (EdgeMemory.storeMemory unreachable "sat-1" None "uuid-0" note
     (EdgeMemory.mount (Some "user-1"%string) ∅ false)).2.

Definition more_formal : SessionUpdate :=
  {| u_conversationSummary := None; u_activeContext := None;
     u_pendingTopics := None; u_communicationStyle := Some "formal"%string;
     u_verbosityPreference := None; u_totalInteractions := None;
     u_totalSessions := None |}.

(** A signed-in user mounts the hook with an empty cache ... *)
Definition signed_in : World EdgeMemory.Cells :=
  EdgeMemory.mount (Some "user-1"%string) ∅ false.

(** ... rehydrates from the remote function ... *)
Definition synced : World EdgeMemory.Cells :=
  (EdgeMemory.rehydrate restoring "sat-1" None "uuid-0" signed_in).2.

(** ... and stores one more record. *)
Definition synced_then_stored : World EdgeMemory.Cells :=
  (EdgeMemory.storeMemory restoring "sat-1" None "uuid-0" note synced).2.

Definition talk : list Turn :=
  [ {| t_role := "user"; t_content := Some "I moved to Lyon"%string |};
    {| t_role := "assistant"; t_content := Some "Noted."%string |} ].

Definition fact1 : Fact := {| f_content := "lives in Lyon"; f_importance := "high" |}.
Definition fact2 : Fact := {| f_content := "moved recently"; f_importance := "low" |}.
Definition fact3 : Fact := {| f_content := "speaks French"; f_importance := "low" |}.

(** Three facts, no preference, no pattern. *)
Definition three_facts : ExtractData :=
  {| success := true;
     insights := Some {| preferences := None; patterns := Some [];
                         facts := Some [fact1; fact2; fact3] |} |}.

Definition insight (key : string) (c : float) : Insight :=
  {| i_key := key; i_value := JBool true; i_confidence := c |}.

(** Insights on both sides of the two thresholds. *)
Definition graded : ExtractData :=
  {| success := true;
     insights := Some {| preferences := Some [insight "tea" 0.6; insight "jazz" 0.61];
                         patterns := Some [insight "late" 0.5; insight "brief" 0.6];
                         facts := Some [fact1] |} |}.

Definition extracting (answer : ExtractData) : Backend :=
  {| on_rehydrate := on_rehydrate restoring;
     on_store_memory := on_store_memory restoring;
     on_evolve_knowledge := on_evolve_knowledge restoring;
     on_sync_session := on_sync_session restoring;
     on_extract_insights := fun _ => resolved 5 answer;
     on_ping := on_ping restoring;
     on_chat := on_chat restoring;
     on_sovereign := on_sovereign restoring |}.

Definition answer (text : string) : ChatData :=
  {| c_response := Some text; c_confidence := None;
     c_dominant_hemisphere := None; c_reasoning_trace := None;
     c_governance_validated := None |}.

Definition local_answer (text : string) : SovereignData :=
  {| sv_response := Some text; sv_confidence := None;
     sv_reasoning_trace := None; sv_governance_validated := None |}.

(** The federation is up: ping and chat answer at once. *)
Definition federated : Backend :=
  {| on_rehydrate := on_rehydrate restoring;
     on_store_memory := on_store_memory restoring;
     on_evolve_knowledge := on_evolve_knowledge restoring;
     on_sync_session := on_sync_session restoring;
     on_extract_insights := on_extract_insights restoring;
     on_ping := fun _ => resolved 20 tt;
     on_chat := fun _ => resolved 300 (answer "from the federation");
     on_sovereign := fun _ => resolved 50 (local_answer "from the edge") |}.

(** The federation is down, the sovereign function answers. *)
Definition isolated : Backend :=
  {| on_rehydrate := on_rehydrate unreachable;
     on_store_memory := on_store_memory unreachable;
     on_evolve_knowledge := on_evolve_knowledge unreachable;
     on_sync_session := on_sync_session unreachable;
     on_extract_insights := on_extract_insights unreachable;
     on_ping := fun _ => rejected "Failed to fetch";
     on_chat := fun _ => rejected "Failed to fetch";
     on_sovereign := fun _ => resolved 50 (local_answer "from the edge") |}.

(** The ping answers, the chat function reports an error, and the
    sovereign function fails on its first invocation only. *)
Definition flaky : Backend :=
  {| on_rehydrate := on_rehydrate unreachable;
     on_store_memory := on_store_memory unreachable;
     on_evolve_knowledge := on_evolve_knowledge unreachable;
     on_sync_session := on_sync_session unreachable;
     on_extract_insights := on_extract_insights unreachable;
     on_ping := fun _ => resolved 20 tt;
     on_chat := fun _ => errored "503";
     on_sovereign := fun history =>
       if Nat.eqb (count_invokes "sovereign-fallback" history) 1
       then errored "cold start"
       else resolved 50 (local_answer "second try") |}.

(** The federation is down, and the sovereign function resolves with
    neither data nor error. *)
Definition hollow : Backend :=
  {| on_rehydrate := on_rehydrate unreachable;
     on_store_memory := on_store_memory unreachable;
     on_evolve_knowledge := on_evolve_knowledge unreachable;
     on_sync_session := on_sync_session unreachable;
     on_extract_insights := on_extract_insights unreachable;
     on_ping := fun _ => rejected "Failed to fetch";
     on_chat := fun _ => rejected "Failed to fetch";
     on_sovereign := fun _ =>
       {| latency := 50; settled := Resolves None None |} |}.


(** The ping answers without error, after ten seconds. *)
Definition slow : Backend :=
  {| on_rehydrate := on_rehydrate unreachable;
     on_store_memory := on_store_memory unreachable;
     on_evolve_knowledge := on_evolve_knowledge unreachable;
     on_sync_session := on_sync_session unreachable;
     on_extract_insights := on_extract_insights unreachable;
     on_ping := fun _ => resolved 10000 tt;
     on_chat := fun _ => resolved 300 (answer "from the federation");
     on_sovereign := fun _ => resolved 50 (local_answer "from the edge") |}.

(** Fifty-two records, numbered by their content. *)
Definition numbered (n : nat) : MemoryInput :=
  {| in_content := String (Ascii.ascii_of_nat (48 + n)) "";
     in_memoryType := "fact"; in_importance := "low"; in_topicTags := None |}.

Definition fifty_two : list MemoryInput := numbered <$> seq 0 52.

Definition six_queries : list string := ["q1"; "q2"; "q3"; "q4"; "q5"; "q6"]%string.

Definition no_uuid : nat -> string := fun _ => "uuid-0"%string.

(** One exchange on the sovereign path, from the mounted hook. *)
Definition after_one_exchange : World DualHemisphere.Cells :=
  (DualHemisphere.process isolated "sat-1" None no_uuid "first" Standard
     DualHemisphere.mount).2.

(** Nobody is signed in, and there is no cache. *)
Definition anonymous : World EdgeMemory.Cells :=
  EdgeMemory.mount None ∅ false.

(** What the [evolve_knowledge] action answers in [evolving]. *)
Definition growing : Evolved :=
  {| confidence_trajectory := Some [0.5; 0.62; 0.7]%float;
     observations_count := Some 3 |}.

Definition evolving : Backend :=
  {| on_rehydrate := on_rehydrate restoring;
     on_store_memory := on_store_memory restoring;
     on_evolve_knowledge := fun _ => resolved 5 {| evolved := Some growing |};
     on_sync_session := on_sync_session restoring;
     on_extract_insights := on_extract_insights restoring;
     on_ping := on_ping restoring;
     on_chat := on_chat restoring;
     on_sovereign := on_sovereign restoring |}.

(** A signed-in user whose cache entry is a text that does not parse. *)
Definition corrupted : World EdgeMemory.Cells :=
  EdgeMemory.mount (Some "user-1"%string)
    {[ EdgeMemory.cache_key "sat-1" := Corrupt ]} false.

Definition some_mutations : list EdgeMemory.Call :=
  [ EdgeMemory.CallStoreMemory note;
    EdgeMemory.CallEvolveKnowledge "tea" (JBool true) "preference";
    EdgeMemory.CallUpdateSession more_formal;
    EdgeMemory.CallExtractInsights talk ].

Definition a_busy_day : list EdgeMemory.Call :=
  [ EdgeMemory.CallRehydrate;
    EdgeMemory.CallStoreMemory note;
    EdgeMemory.AuthStateChange None;
    EdgeMemory.AuthStateChange (Some "user-2"%string);
    EdgeMemory.CallRehydrate ].

(** A partial snapshot: memories only. *)
Definition only_memories : Snapshot :=
  {| s_memories := Some [remembered]; s_knowledge := None; s_session := None;
     s_isReturningUser := None; s_greeting := None; s_isLoading := None;
     s_isOnline := None; s_lastSyncAt := None; s_savedAt := None |}.

End Scenario.

(** * Properties *)

(** ** Arrays *)

Lemma length_slice_last {A} (n : nat) (l : list A) :
  length (slice_last n l) = n `min` length l.
Proof. unfold slice_last. rewrite length_drop. lia. Qed.

Lemma slice_last_short {A} (n : nat) (l : list A) :
  length l ≤ n → slice_last n l = l.
Proof.
  intros Hle. unfold slice_last.
  replace (length l - n) with 0 by lia. reflexivity.
Qed.

(** Keeping [n] elements and appending one keeps the last [n + 1]. *)
Lemma slice_last_snoc {A} (n : nat) (l : list A) (x : A) :
  slice_last n l ++ [x] = slice_last (S n) (l ++ [x]).
Proof.
  unfold slice_last. rewrite length_app. simpl.
  replace (length l + 1 - S n) with (length l - n) by lia.
  rewrite drop_app_le by lia. reflexivity.
Qed.

(** Truncating twice is truncating once. *)
Lemma slice_last_app_absorb {A} (n : nat) (a b : list A) :
  slice_last n (slice_last n a ++ b) = slice_last n (a ++ b).
Proof.
  destruct (decide (length a ≤ n)) as [Hle | Hgt].
  - rewrite (slice_last_short n a) by done. reflexivity.
  - unfold slice_last at 1 3. rewrite !length_app, length_slice_last.
    unfold slice_last.
    set (k := length a - n).
    replace (n `min` length a + length b - n) with (length b) by lia.
    replace (length a + length b - n) with (length (take k a) + length b)
      by (rewrite length_take; lia).
    rewrite <- (take_drop k a) at 3.
    rewrite <- (assoc_L (++)), drop_app_add. reflexivity.
Qed.

(** A member set by the later object of a spread wins. *)
Lemma spread_present {A} (x : A) (earlier : option A) :
  Some x ∪ earlier = Some x.
Proof. destruct earlier; reflexivity. Qed.

(** ** The monad *)

Lemma bind_val {S A B} (m : M S A) (k : A -> M S B) (w w' : World S) (a : A) :
  m w = (Val a, w') → bind m k w = k a w'.
Proof. unfold bind. intros ->. reflexivity. Qed.

Lemma bind_raise {S A B} (m : M S A) (k : A -> M S B) (w w' : World S) (e : Exn) :
  m w = (Raise e, w') → bind m k w = (Raise e, w').
Proof. unfold bind. intros ->. reflexivity. Qed.

(** ** storeMemory *)

Section StoreMemory.
Import EdgeMemory.
Variable backend : Backend.
Variables (satelliteId : string) (sessionId : option string) (uuid : string).

Let store := storeMemory backend satelliteId sessionId uuid.

(** One call, on any branch: the call returns, the record is appended to
    the last 49, and nothing else of the hook's state changes. *)
Lemma storeMemory_step (memory : MemoryInput) (w : World Cells) :
  ∃ w', store memory w = (Val tt, w') ∧
    state (hook w') = append_memory memory (state (hook w)) ∧
    userIdRef (hook w') = userIdRef (hook w) ∧
    localStorage w' = localStorage w.
Proof.
  unfold store, storeMemory, bind, get.
  destruct (userIdRef (hook w)) as [userId |] eqn:Hu.
  - unfold try_catch, bind, invoke.
    destruct (settled (on_store_memory backend _)) as [e | data error];
      simpl; eexists; (split; [reflexivity |]); simpl; auto.
  - simpl. eexists. split; [reflexivity |]. simpl. auto.
Qed.

Lemma storeMemory_memories (memory : MemoryInput) (w : World Cells) :
  memories (state (hook (store memory w).2)) =
  slice_last 50 (memories (state (hook w)) ++ [kept memory]).
Proof.
  destruct (storeMemory_step memory w) as (w' & -> & Hst & _).
  simpl. rewrite Hst. simpl. apply slice_last_snoc.
Qed.

(** A run of calls from any world: the list is the last 50 of what was
    there followed by the new records. *)
Lemma storeMemory_run (records : list MemoryInput) (w : World Cells) :
  records ≠ [] →
  ∃ w', for_of records store w = (Val tt, w') ∧
    memories (state (hook w')) =
    slice_last 50 (memories (state (hook w)) ++ (kept <$> records)).
Proof.
  revert w. induction records as [| m rest IH]; intros w Hne; [done |].
  simpl. unfold bind.
  pose proof (storeMemory_memories m w) as Hm.
  destruct (storeMemory_step m w) as (w1 & Hrun & _).
  rewrite Hrun in *. simpl in Hm.
  destruct rest as [| m' rest'].
  - simpl. eexists. split; [reflexivity |]. exact Hm.
  - destruct (IH w1) as (w' & Hrest & Hmem); [done |].
    exists w'. split; [exact Hrest |].
    rewrite Hmem, Hm, slice_last_app_absorb.
    rewrite <- (assoc_L (++)). reflexivity.
Qed.

(** C1. For every sequence of [storeMemory] calls from the initial empty
    state, whatever the identity, the cache and the replies of the remote
    function (no identity, remote call succeeds, remote call throws): all
    calls return, the list holds exactly the most recent 50 records in
    insertion order, each with confidence 0.5, and so never holds more
    than 50 entries. *)
Theorem storeMemory_bounded_window
    (userId : option string) (storage : gmap string Item) (full : bool)
    (records : list MemoryInput) :
  ∃ w', for_of records store (mount userId storage full) = (Val tt, w') ∧
    memories (state (hook w')) = kept <$> slice_last 50 records ∧
    length (memories (state (hook w'))) ≤ 50 ∧
    Forall (fun m => confidence m = 0.5%float) (memories (state (hook w'))).
Proof.
  assert (∃ w', for_of records store (mount userId storage full) = (Val tt, w') ∧
    memories (state (hook w')) = kept <$> slice_last 50 records)
    as (w' & Hrun & Hmem).
  { destruct records as [| m rest].
    - eexists. split; reflexivity.
    - destruct (storeMemory_run (m :: rest) (mount userId storage full))
        as (w' & Hrun & Hmem); [done |].
      exists w'. split; [exact Hrun |].
      rewrite Hmem. simpl memories. rewrite app_nil_l.
      unfold slice_last. rewrite length_fmap, fmap_drop. reflexivity. }
  exists w'. split; [exact Hrun |]. split; [exact Hmem |].
  rewrite Hmem. split.
  - rewrite length_fmap, length_slice_last. lia.
  - apply Forall_fmap, Forall_forall. intros m _. reflexivity.
Qed.

End StoreMemory.

(** Fifty-two stores by a signed-in user whose calls all fail: the two
    oldest records are gone, the fifty others are there in order. *)
Example storeMemory_drops_the_oldest :
  memories (EdgeMemory.state (hook
    (for_of Scenario.fifty_two
       (EdgeMemory.storeMemory Scenario.unreachable "sat-1" None "uuid-0")
       (EdgeMemory.mount (Some "user-1"%string) ∅ false)).2)) =
  EdgeMemory.kept <$> (Scenario.numbered <$> seq 2 50).
Proof. vm_compute. reflexivity. Qed.

(** ** rehydrate *)

Section Rehydrate.
Import EdgeMemory.
Variable backend : Backend.
Variables (satelliteId : string) (sessionId : option string) (uuid : string).

Let load := loadFromLocalStorage satelliteId.
Let save := saveToLocalStorage satelliteId.
Let cached := cached_snapshot satelliteId.
Let key := cache_key satelliteId.

(** Loading never raises and never writes; with a readable entry it takes
    the three lists from it, otherwise it leaves the state alone. *)
Lemma loadFromLocalStorage_spec (w : World Cells) :
  ∃ w', load w = (Val tt, w') ∧
    localStorage w' = localStorage w ∧ log w' = log w ∧
    userIdRef (hook w') = userIdRef (hook w) ∧
    state (hook w') =
      match cached w with
      | Some c => load_cached c (state (hook w))
      | None => state (hook w)
      end.
Proof.
  unfold load, cached, loadFromLocalStorage, cached_snapshot, try_catch, bind, getItem.
  destruct (localStorage w !! cache_key satelliteId) as [[| | c] |];
    simpl; eexists; (split; [reflexivity |]); simpl; auto.
Qed.

(** Saving never raises and never touches the hook's cells; it writes the
    merged object when it can, and nothing otherwise. *)
Lemma saveToLocalStorage_spec (data : Snapshot) (w : World Cells) :
  ∃ w', save data w = (Val tt, w') ∧
    hook w' = hook w ∧ log w' = log w ∧
    localStorage w' =
      if cache_writable satelliteId w
      then <[key := Stored (merge_snapshot (default empty_snapshot (cached w))
                              data (clock w))]> (localStorage w)
      else localStorage w.
Proof.
  unfold save, cached, key, saveToLocalStorage, cache_writable, cached_snapshot,
    try_catch, bind, getItem, setItem, Date_now, JSON_stringify.
  destruct (localStorage w !! cache_key satelliteId) as [[| | c] |];
    simpl; destruct (storageFull w);
    simpl; eexists; (split; [reflexivity |]); simpl; auto.
Qed.

(** C3, as the code has it. When [rehydrate] runs with an identity and the
    remote call does not deliver (it rejects, reports an error, or resolves
    without data): the call returns, the hook is offline and no longer
    loading, and the cache is not written. With a readable cache entry the
    memories, knowledge and session are the entry's (a missing member
    defaulting to empty); with no entry, or a corrupt one, they are left as
    they were in memory. *)
Theorem rehydrate_failure_falls_back_to_cache
    (w : World Cells) (userId : string) :
  userIdRef (hook w) = Some userId →
  delivered (settled (rehydrate_reply backend satelliteId sessionId uuid userId w)) = None →
  ∃ w', rehydrate backend satelliteId sessionId uuid w = (Val tt, w') ∧
    isOnline (state (hook w')) = false ∧
    isLoading (state (hook w')) = false ∧
    localStorage w' = localStorage w ∧
    match cached w with
    | Some c =>
        memories (state (hook w')) = default [] (s_memories c) ∧
        knowledge (state (hook w')) = default ∅ (s_knowledge c) ∧
        session (state (hook w')) = default None (s_session c)
    | None =>
        memories (state (hook w')) = memories (state (hook w)) ∧
        knowledge (state (hook w')) = knowledge (state (hook w)) ∧
        session (state (hook w')) = session (state (hook w))
    end.
Proof.
  intros Hid Hfail.
  unfold rehydrate, bind, get. rewrite Hid.
  unfold rehydrateInternal, rehydrate_reply in *.
  unfold try_catch at 1. unfold bind at 1. unfold invoke.
  set (history := log w ++ [_]) in *.
  set (w1 := {| hook := hook w; localStorage := localStorage w;
                storageFull := storageFull w; log := history;
                clock := (clock w + latency (on_rehydrate backend history))%N |}).
  assert (Hfallback : ∃ w',
    (loadFromLocalStorage satelliteId ;; setState set_offline) w1 = (Val tt, w') ∧
    isOnline (state (hook w')) = false ∧
    isLoading (state (hook w')) = false ∧
    localStorage w' = localStorage w ∧
    match cached w with
    | Some c =>
        memories (state (hook w')) = default [] (s_memories c) ∧
        knowledge (state (hook w')) = default ∅ (s_knowledge c) ∧
        session (state (hook w')) = default None (s_session c)
    | None =>
        memories (state (hook w')) = memories (state (hook w)) ∧
        knowledge (state (hook w')) = knowledge (state (hook w)) ∧
        session (state (hook w')) = session (state (hook w))
    end).
  { destruct (loadFromLocalStorage_spec w1) as (w2 & Hload & Hls & _ & _ & Hst).
    unfold bind. fold load. rewrite Hload. simpl.
    eexists. split; [reflexivity |]. simpl.
    rewrite Hst, Hls.
    change (cached w1) with (cached w).
    destruct (cached w) as [c |]; simpl; repeat split. }
  simpl.
  destruct (settled (on_rehydrate backend history)) as [e | [d |] [err |]];
    simpl in *; try discriminate;
    destruct Hfallback as (w' & Hrun & Hrest);
    exists w'; (split; [| exact Hrest]);
    try rewrite Hrun; done.
Qed.

(** C4, as the code has it. When [rehydrate] runs with an identity and the
    remote call delivers [d]: the call returns; memories, knowledge and
    session are those of the response's context (a missing member defaulting
    to empty), the returning-user flag and the greeting are the response's,
    the hook is online and stamped with the time of the reply. When the
    store can take the write, the snapshot written to the cache carries
    exactly these memories, knowledge and session. When it cannot (the
    entry is a non-empty text that does not parse, or the quota is
    exceeded), the state in memory is replaced all the same and the cache is
    left as it was. *)
Theorem rehydrate_success_replaces_state
    (w : World Cells) (userId : string) (d : RehydrateData) :
  userIdRef (hook w) = Some userId →
  delivered (settled (rehydrate_reply backend satelliteId sessionId uuid userId w)) = Some d →
  ∃ w', rehydrate backend satelliteId sessionId uuid w = (Val tt, w') ∧
    memories (state (hook w')) = default [] (rh_context d ≫= ctx_memories) ∧
    knowledge (state (hook w')) = default ∅ (rh_context d ≫= ctx_knowledge) ∧
    session (state (hook w')) = rh_context d ≫= ctx_session ∧
    isReturningUser (state (hook w')) = rh_isReturningUser d ∧
    greeting (state (hook w')) = rh_greeting d ∧
    isOnline (state (hook w')) = true ∧
    isLoading (state (hook w')) = false ∧
    lastSyncAt (state (hook w')) = Some (clock w') ∧
    if cache_writable satelliteId w then
      ∃ c, localStorage w' = <[key := Stored c]> (localStorage w) ∧
        s_memories c = Some (memories (state (hook w'))) ∧
        s_knowledge c = Some (knowledge (state (hook w'))) ∧
        s_session c = Some (session (state (hook w'))) ∧
        s_savedAt c = Some (clock w')
    else localStorage w' = localStorage w.
Proof.
  intros Hid Hok.
  unfold rehydrate, bind, get. rewrite Hid.
  unfold rehydrateInternal, rehydrate_reply in *.
  unfold try_catch at 1. unfold bind at 1. unfold invoke.
  set (history := log w ++ [_]) in *.
  destruct (settled (on_rehydrate backend history)) as [e | [d' |] [err |]];
    simpl in Hok; try discriminate.
  injection Hok as ->.
  unfold bind, deref, ret, Date_now, setState, modify. simpl.
  match goal with
  | |- context [saveToLocalStorage _ ?data ?w1] =>
      destruct (saveToLocalStorage_spec data w1) as (w2 & Hsave & Hhook & _ & Hls)
  end.
  unfold save in Hsave. rewrite Hsave.
  exists w2. split; [reflexivity |].
  rewrite Hhook. simpl.
  repeat (split; [reflexivity |]).
  assert (Hclock : clock w2 = (clock w + latency (on_rehydrate backend history))%N).
  { revert Hsave. unfold saveToLocalStorage, try_catch, bind, getItem, setItem,
      Date_now, JSON_stringify. simpl.
    destruct (localStorage w !! cache_key satelliteId) as [[| | c] |];
      simpl; destruct (storageFull w); simpl; intros [= <-]; reflexivity. }
  split; [by rewrite Hclock |].
  rewrite Hls.
  change (cache_writable satelliteId _) with (cache_writable satelliteId w).
  destruct (cache_writable satelliteId w); [| reflexivity].
  eexists. split; [reflexivity |]. simpl.
  repeat split; try apply spread_present. congruence.
Qed.

End Rehydrate.

(** The fallback at work: after a sync and one more local record, a failed
    rehydration brings back the cached list and drops the local record. *)
Lemma rehydrate_failure_witness :
  ∃ w', EdgeMemory.rehydrate Scenario.failing "sat-1" None "uuid-0"
          Scenario.synced_then_stored = (Val tt, w') ∧
    isOnline (EdgeMemory.state (hook w')) = false ∧
    isLoading (EdgeMemory.state (hook w')) = false ∧
    localStorage w' = localStorage Scenario.synced_then_stored ∧
    memories (EdgeMemory.state (hook w')) = [Scenario.remembered] ∧
    knowledge (EdgeMemory.state (hook w')) = ∅ ∧
    session (EdgeMemory.state (hook w')) = Some Scenario.a_session.
Proof.
  exact (rehydrate_failure_falls_back_to_cache Scenario.failing "sat-1" None
           "uuid-0" Scenario.synced_then_stored "user-1" eq_refl eq_refl).
Defined.

(** C3 as stated fails: with no cache entry, a failed rehydration does not
    give the empty snapshot; the record stored in memory is still there. *)
Lemma rehydrate_failure_without_cache_keeps_state :
  ¬ (∀ (backend : Backend) (satelliteId : string) (sessionId : option string)
       (uuid : string) (w : World EdgeMemory.Cells) (userId : string),
      EdgeMemory.userIdRef (hook w) = Some userId →
      reports_failure (settled (EdgeMemory.rehydrate_reply backend satelliteId
                                  sessionId uuid userId w)) = true →
      let w' := (EdgeMemory.rehydrate backend satelliteId sessionId uuid w).2 in
      let held := default empty_snapshot
                    (EdgeMemory.cached_snapshot satelliteId w) in
      memories (EdgeMemory.state (hook w')) = default [] (s_memories held) ∧
      knowledge (EdgeMemory.state (hook w')) = default ∅ (s_knowledge held) ∧
      session (EdgeMemory.state (hook w')) = default None (s_session held) ∧
      isOnline (EdgeMemory.state (hook w')) = false).
Proof.
  intros Hclaim.
  destruct (Hclaim Scenario.unreachable "sat-1"%string None "uuid-0"%string
              Scenario.after_one_store "user-1"%string eq_refl eq_refl)
    as (Hmem & _).
  vm_compute in Hmem. discriminate Hmem.
Qed.

(** A first rehydration that succeeds: state and cache both take the
    response. *)
Lemma rehydrate_success_witness :
  ∃ w', EdgeMemory.rehydrate Scenario.restoring "sat-1" None "uuid-0"
          Scenario.signed_in = (Val tt, w') ∧
    memories (EdgeMemory.state (hook w')) = [Scenario.remembered] ∧
    knowledge (EdgeMemory.state (hook w')) = ∅ ∧
    session (EdgeMemory.state (hook w')) = Some Scenario.a_session ∧
    isReturningUser (EdgeMemory.state (hook w')) = true ∧
    greeting (EdgeMemory.state (hook w')) = "Welcome back"%string ∧
    isOnline (EdgeMemory.state (hook w')) = true ∧
    isLoading (EdgeMemory.state (hook w')) = false ∧
    lastSyncAt (EdgeMemory.state (hook w')) = Some (clock w') ∧
    ∃ c, localStorage w' =
           <[EdgeMemory.cache_key "sat-1" := Stored c]>
             (localStorage Scenario.signed_in) ∧
      s_memories c = Some (memories (EdgeMemory.state (hook w'))) ∧
      s_knowledge c = Some (knowledge (EdgeMemory.state (hook w'))) ∧
      s_session c = Some (session (EdgeMemory.state (hook w'))) ∧
      s_savedAt c = Some (clock w').
Proof.
  exact (rehydrate_success_replaces_state Scenario.restoring "sat-1" None
           "uuid-0" Scenario.signed_in "user-1" Scenario.restored
           eq_refl eq_refl).
Defined.

(** C4 as stated fails: with a cache entry that does not parse, a
    rehydration that delivers replaces the state in memory, but no snapshot
    is written; the cache does not hold the new memories, knowledge and
    session. *)
Lemma rehydrate_success_without_cache_write :
  ¬ (∀ (backend : Backend) (satelliteId : string) (sessionId : option string)
       (uuid : string) (w : World EdgeMemory.Cells) (userId : string)
       (d : RehydrateData),
      EdgeMemory.userIdRef (hook w) = Some userId →
      delivered (settled (EdgeMemory.rehydrate_reply backend satelliteId
                            sessionId uuid userId w)) = Some d →
      let w' := (EdgeMemory.rehydrate backend satelliteId sessionId uuid w).2 in
      memories (EdgeMemory.state (hook w')) =
        default [] (rh_context d ≫= ctx_memories) ∧
      knowledge (EdgeMemory.state (hook w')) =
        default ∅ (rh_context d ≫= ctx_knowledge) ∧
      session (EdgeMemory.state (hook w')) = rh_context d ≫= ctx_session ∧
      isReturningUser (EdgeMemory.state (hook w')) = rh_isReturningUser d ∧
      greeting (EdgeMemory.state (hook w')) = rh_greeting d ∧
      isOnline (EdgeMemory.state (hook w')) = true ∧
      lastSyncAt (EdgeMemory.state (hook w')) = Some (clock w') ∧
      ∃ c, EdgeMemory.cached_snapshot satelliteId w' = Some c ∧
        s_memories c = Some (memories (EdgeMemory.state (hook w'))) ∧
        s_knowledge c = Some (knowledge (EdgeMemory.state (hook w'))) ∧
        s_session c = Some (session (EdgeMemory.state (hook w')))).
Proof.
  intros Hclaim.
  destruct (Hclaim Scenario.restoring "sat-1"%string None "uuid-0"%string
              Scenario.corrupted "user-1"%string Scenario.restored
              eq_refl eq_refl)
    as (_ & _ & _ & _ & _ & _ & _ & c & Hcache & _).
  vm_compute in Hcache. discriminate Hcache.
Qed.

(** The same on a store that is full: the state is replaced, the entry of
    the earlier sync stays. An entry that is the empty string does not stand
    in the way: it is overwritten. *)
Example rehydrate_success_and_the_store :
  let full := {| hook := hook Scenario.synced_then_stored;
                 localStorage := localStorage Scenario.synced_then_stored;
                 storageFull := true;
                 log := log Scenario.synced_then_stored;
                 clock := clock Scenario.synced_then_stored |} in
  let after := (EdgeMemory.rehydrate Scenario.restoring "sat-1" None "uuid-0"
                  full).2 in
  lastSyncAt (EdgeMemory.state (hook after)) = Some (clock after) ∧
  localStorage after = localStorage full ∧
  (s_savedAt <$> EdgeMemory.cached_snapshot "sat-1" after) =
    (s_savedAt <$> EdgeMemory.cached_snapshot "sat-1" Scenario.synced) ∧
  let blank := EdgeMemory.mount (Some "user-1"%string)
                 {[ EdgeMemory.cache_key "sat-1" := Blank ]} false in
  let filled := (EdgeMemory.rehydrate Scenario.restoring "sat-1" None "uuid-0"
                   blank).2 in
  EdgeMemory.cached_snapshot "sat-1" blank = None ∧
  (s_memories <$> EdgeMemory.cached_snapshot "sat-1" filled) =
    Some (Some [Scenario.remembered]).
Proof. cbv zeta. repeat split; vm_compute; reflexivity. Qed.

(** ** updateSession *)

Section UpdateSession.
Import EdgeMemory.
Variable backend : Backend.
Variables (satelliteId : string) (sessionId : option string) (uuid : string).

(** [updateSession] never raises. Without an identity it changes nothing
    and calls nothing. With an identity it makes exactly one [sync_session]
    invocation carrying the update; if the promise rejects, the state is
    left as it was and the update is lost locally; if it resolves (the
    [error] member is not read), the update is merged into the local session
    when there is one, and the session stays absent otherwise. *)
Lemma updateSession_spec
    (updates : SessionUpdate) (w : World Cells) :
  match userIdRef (hook w) with
  | None => updateSession backend satelliteId sessionId uuid updates w = (Val tt, w)
  | Some userId =>
      ∃ w', updateSession backend satelliteId sessionId uuid updates w = (Val tt, w') ∧
        log w' = log w ++
          [Invoke "edge-agent-memory"
             (ReqSyncSession userId satelliteId
                (currentSessionId sessionId uuid) updates)] ∧
        localStorage w' = localStorage w ∧
        userIdRef (hook w') = Some userId ∧
        state (hook w') =
          match settled (sync_reply backend satelliteId sessionId uuid
                           userId updates w) with
          | Rejects _ => state (hook w)
          | Resolves _ _ =>
              set_session
                (match session (state (hook w)) with
                 | Some s => Some (merge_session s updates)
                 | None => None
                 end)
                (state (hook w))
          end
  end.
Proof.
  unfold updateSession, sync_reply, bind, get.
  destruct (userIdRef (hook w)) as [userId |] eqn:Hid; [| reflexivity].
  unfold try_catch, bind, invoke.
  destruct (settled (on_sync_session backend _)) as [e | data error];
    simpl; eexists; (split; [reflexivity |]); simpl; auto.
Qed.

End UpdateSession.

(** C7, at the input where the code departs from it. The user is signed
    in, a session exists locally, and the [sync_session] invocation resolves
    with the [error] member set: the remote call has failed, and the update
    is merged into the local session all the same. *)
Theorem updateSession_merges_on_reported_error :
  let w := Scenario.synced in
  let w' := (EdgeMemory.updateSession Scenario.failing "sat-1" None "uuid-0"
               Scenario.more_formal w).2 in
  EdgeMemory.userIdRef (hook w) = Some "user-1"%string ∧
  reports_failure (settled (EdgeMemory.sync_reply Scenario.failing "sat-1" None
                              "uuid-0" "user-1" Scenario.more_formal w)) = true ∧
  session (EdgeMemory.state (hook w)) = Some Scenario.a_session ∧
  session (EdgeMemory.state (hook w')) =
    Some (merge_session Scenario.a_session Scenario.more_formal) ∧
  communicationStyle <$> session (EdgeMemory.state (hook w')) =
    Some "formal"%string.
Proof. vm_compute. auto. Qed.

(** ** extractInsights *)

Section ExtractInsights.
Import EdgeMemory.
Variable backend : Backend.
Variables (satelliteId : string) (sessionId : option string) (uuid : string).

Let evolve := evolveKnowledge backend satelliteId.
Let store := storeMemory backend satelliteId sessionId uuid.

Lemma same_session_trans (w1 w2 w3 : World Cells) :
  same_session w1 w2 → same_session w2 w3 → same_session w1 w3.
Proof. unfold same_session. intros (-> & -> & ->) (-> & -> & ->). done. Qed.

(** One evolution with an identity: one invocation, no exception, and the
    memory list is not touched. *)
Lemma evolveKnowledge_signed_in (userId key : string) (value : Json)
    (type : string) (w : World Cells) :
  userIdRef (hook w) = Some userId →
  ∃ w', evolve key value type w = (Val tt, w') ∧
    log w' = log w ++
      [Invoke "edge-agent-memory"
         (ReqEvolveKnowledge userId satelliteId type key value)] ∧
    memories (state (hook w')) = memories (state (hook w)) ∧
    same_session w w'.
Proof.
  intros Hid. unfold evolve, evolveKnowledge, same_session, bind, get.
  rewrite Hid. unfold try_catch, bind, invoke.
  destruct (settled (on_evolve_knowledge backend _)) as [e | data error];
    simpl.
  - eexists. split; [reflexivity |]. simpl. repeat split; auto.
  - destruct (data ≫= evolved) as [ev |]; simpl;
      eexists; (split; [reflexivity |]); simpl; repeat split; auto.
Qed.

(** One store with an identity: one invocation tagged with the current
    mode, no exception, and the record appended. *)
Lemma storeMemory_signed_in (userId : string) (memory : MemoryInput)
    (w : World Cells) :
  userIdRef (hook w) = Some userId →
  ∃ w', store memory w = (Val tt, w') ∧
    log w' = log w ++
      [Invoke "edge-agent-memory"
         (store_request satelliteId sessionId uuid userId
            (isOnline (state (hook w))) memory)] ∧
    memories (state (hook w')) =
      slice_last 49 (memories (state (hook w))) ++ [kept memory] ∧
    same_session w w'.
Proof.
  intros Hid. unfold store, storeMemory, same_session, bind, get.
  rewrite Hid. unfold try_catch, bind, invoke.
  destruct (settled (on_store_memory backend _)) as [e | data error];
    simpl; eexists; (split; [reflexivity |]); simpl; repeat split; auto.
Qed.

(** A loop over insights evolves those above the threshold, in order. *)
Lemma evolve_loop (userId type : string) (threshold : float)
    (l : list Insight) (w : World Cells) :
  userIdRef (hook w) = Some userId →
  ∃ w', for_of l (fun i =>
          if num_gt (i_confidence i) threshold
          then evolve (i_key i) (i_value i) type
          else ret tt) w = (Val tt, w') ∧
    log w' = log w ++ evolve_calls satelliteId userId type (above threshold l) ∧
    memories (state (hook w')) = memories (state (hook w)) ∧
    same_session w w'.
Proof.
  revert w. induction l as [| i rest IH]; intros w Hid; simpl.
  - exists w. unfold same_session. rewrite app_nil_r. repeat split; auto.
  - unfold bind. destruct (num_gt (i_confidence i) threshold).
    + destruct (evolveKnowledge_signed_in userId (i_key i) (i_value i) type w Hid)
        as (w1 & -> & Hlog1 & Hmem1 & Hsame1).
      destruct (IH w1) as (w' & Hrun & Hlog & Hmem & Hsame).
      { destruct Hsame1 as (-> & _). exact Hid. }
      exists w'. split; [exact Hrun |].
      rewrite Hlog, Hlog1, Hmem, Hmem1, <- (assoc_L (++)).
      split; [reflexivity |]. split; [reflexivity |].
      eapply same_session_trans; eassumption.
    + simpl. apply IH, Hid.
Qed.

(** The loop over the facts stores each of them, in order. *)
Lemma store_loop (userId : string) (l : list Fact) (w : World Cells) :
  userIdRef (hook w) = Some userId →
  ∃ w', for_of l (fun fact => store (insight_record fact)) w = (Val tt, w') ∧
    log w' = log w ++
      store_calls satelliteId sessionId uuid userId
        (isOnline (state (hook w))) (insight_record <$> l) ∧
    memories (state (hook w')) =
      appended (insight_record <$> l) (memories (state (hook w))) ∧
    same_session w w'.
Proof.
  revert w. induction l as [| fact rest IH]; intros w Hid; simpl.
  - exists w. unfold same_session. rewrite app_nil_r. repeat split; auto.
  - unfold bind.
    destruct (storeMemory_signed_in userId (insight_record fact) w Hid)
      as (w1 & -> & Hlog1 & Hmem1 & Hsame1).
    destruct (IH w1) as (w' & Hrun & Hlog & Hmem & Hsame).
    { destruct Hsame1 as (-> & _). exact Hid. }
    exists w'. split; [exact Hrun |].
    rewrite Hlog, Hlog1, Hmem, Hmem1, <- (assoc_L (++)).
    destruct Hsame1 as (Hu1 & Ho1 & Hl1). rewrite Ho1.
    split; [reflexivity |]. split; [reflexivity |].
    eapply same_session_trans; [| eassumption]. done.
Qed.

(** The fan-out after a structured success: preferences above 0.6, then
    patterns above 0.5, then every fact. *)
Lemma extractInsights_success (conversation : list Turn) (w : World Cells)
    (userId : string) (data : ExtractData) (error : option string)
    (ins : Insights) :
  userIdRef (hook w) = Some userId →
  2 ≤ length conversation →
  settled (extract_reply backend satelliteId userId conversation w) =
    Resolves (Some data) error →
  success data = true →
  insights data = Some ins →
  ∃ w', extractInsights backend satelliteId sessionId uuid conversation w =
          (Val tt, w') ∧
    log w' = log w ++
      [Invoke "edge-agent-memory"
         (ReqExtractInsights userId satelliteId conversation)] ++
      evolve_calls satelliteId userId "preference"
        (above 0.6 (default [] (preferences ins))) ++
      evolve_calls satelliteId userId "behavior"
        (above 0.5 (default [] (patterns ins))) ++
      store_calls satelliteId sessionId uuid userId
        (isOnline (state (hook w)))
        (insight_record <$> default [] (facts ins)) ∧
    memories (state (hook w')) =
      appended (insight_record <$> default [] (facts ins))
        (memories (state (hook w))).
Proof.
  intros Hid Hlen Hreply Hok Hins.
  unfold extractInsights, extract_reply in *. unfold bind at 1. unfold get.
  rewrite Hid. rewrite bool_decide_eq_false_2 by lia.
  unfold try_catch. unfold bind at 1. unfold invoke. rewrite Hreply.
  cbn [fst]. rewrite Hok, Hins.
  set (w1 := {| hook := hook w; localStorage := localStorage w;
                storageFull := storageFull w; log := _; clock := _ |}).
  unfold bind.
  destruct (evolve_loop userId "preference" 0.6 (default [] (preferences ins)) w1 Hid)
    as (w2 & Hrun2 & Hlog2 & Hmem2 & Hsame2).
  unfold evolve in Hrun2. rewrite Hrun2.
  assert (Hid2 : userIdRef (hook w2) = Some userId).
  { destruct Hsame2 as (-> & _). exact Hid. }
  destruct (evolve_loop userId "behavior" 0.5 (default [] (patterns ins)) w2 Hid2)
    as (w3 & Hrun3 & Hlog3 & Hmem3 & Hsame3).
  unfold evolve in Hrun3. rewrite Hrun3.
  assert (Hid3 : userIdRef (hook w3) = Some userId).
  { destruct Hsame3 as (-> & _). exact Hid2. }
  destruct (store_loop userId (default [] (facts ins)) w3 Hid3)
    as (w4 & Hrun4 & Hlog4 & Hmem4 & Hsame4).
  unfold store in Hrun4. rewrite Hrun4.
  exists w4. split; [reflexivity |].
  destruct Hsame2 as (_ & Ho2 & _). destruct Hsame3 as (_ & Ho3 & _).
  rewrite Hlog4, Hlog3, Hlog2, Hmem4, Hmem3, Hmem2, Ho3, Ho2.
  subst w1. cbn [log hook]. rewrite <- !(assoc_L (++)). done.
Qed.

(** C8. [extractInsights] changes nothing and calls nothing when there is no
    identity or the transcript has fewer than two turns. On a structured
    success it evolves, in this order, the preferences whose confidence is
    strictly above 0.6 (as "preference"), the patterns whose confidence is
    strictly above 0.5 (as "behavior"), and then stores every fact. With three
    facts and no preference or pattern, the calls after the extraction are
    exactly the three stores, in the order of the facts, with the three
    records appended in that order, and no evolution call. *)
Theorem extractInsights_fan_out :
  (∀ (conversation : list Turn) (w : World Cells),
     userIdRef (hook w) = None ∨ length conversation < 2 →
     extractInsights backend satelliteId sessionId uuid conversation w =
       (Val tt, w)) ∧
  (∀ (conversation : list Turn) (w : World Cells) (userId : string)
     (data : ExtractData) (error : option string) (ins : Insights),
     userIdRef (hook w) = Some userId →
     2 ≤ length conversation →
     settled (extract_reply backend satelliteId userId conversation w) =
       Resolves (Some data) error →
     success data = true →
     insights data = Some ins →
     ∃ w', extractInsights backend satelliteId sessionId uuid conversation w =
             (Val tt, w') ∧
       log w' = log w ++
         [Invoke "edge-agent-memory"
            (ReqExtractInsights userId satelliteId conversation)] ++
         evolve_calls satelliteId userId "preference"
           (above 0.6 (default [] (preferences ins))) ++
         evolve_calls satelliteId userId "behavior"
           (above 0.5 (default [] (patterns ins))) ++
         store_calls satelliteId sessionId uuid userId
           (isOnline (state (hook w)))
           (insight_record <$> default [] (facts ins)) ∧
       memories (state (hook w')) =
         appended (insight_record <$> default [] (facts ins))
           (memories (state (hook w)))) ∧
  (∀ (conversation : list Turn) (w : World Cells) (userId : string)
     (data : ExtractData) (error : option string) (ins : Insights)
     (f1 f2 f3 : Fact),
     userIdRef (hook w) = Some userId →
     2 ≤ length conversation →
     settled (extract_reply backend satelliteId userId conversation w) =
       Resolves (Some data) error →
     success data = true →
     insights data = Some ins →
     default [] (preferences ins) = [] →
     default [] (patterns ins) = [] →
     facts ins = Some [f1; f2; f3] →
     let online := isOnline (state (hook w)) in
     let stored f :=
       Invoke "edge-agent-memory"
         (store_request satelliteId sessionId uuid userId online
            (insight_record f)) in
     ∃ w', extractInsights backend satelliteId sessionId uuid conversation w =
             (Val tt, w') ∧
       log w' = log w ++
         [Invoke "edge-agent-memory"
            (ReqExtractInsights userId satelliteId conversation);
          stored f1; stored f2; stored f3] ∧
       memories (state (hook w')) =
         slice_last 49
           (slice_last 49
              (slice_last 49 (memories (state (hook w))) ++
               [kept (insight_record f1)]) ++
            [kept (insight_record f2)]) ++
         [kept (insight_record f3)]).
Proof.
  split; [| split].
  - intros conversation w [Hid | Hlen];
      unfold extractInsights, bind, get.
    + rewrite Hid. reflexivity.
    + destruct (userIdRef (hook w)); [| reflexivity].
      rewrite bool_decide_eq_true_2 by lia. reflexivity.
  - apply extractInsights_success.
  - intros conversation w userId data error ins f1 f2 f3
      Hid Hlen Hreply Hok Hins Hprefs Hpats Hfacts online stored.
    destruct (extractInsights_success conversation w userId data error ins
                Hid Hlen Hreply Hok Hins) as (w' & Hrun & Hlog & Hmem).
    exists w'. split; [exact Hrun |].
    rewrite Hlog, Hmem, Hprefs, Hpats, Hfacts. split; reflexivity.
Qed.

End ExtractInsights.

(** Three facts, no preference and no pattern: after the extraction call,
    three stores and nothing else. *)
Lemma extractInsights_three_facts_witness :
  let stored f :=
    Invoke "edge-agent-memory"
      (EdgeMemory.store_request "sat-1" None "uuid-0" "user-1" true
         (EdgeMemory.insight_record f)) in
  ∃ w', EdgeMemory.extractInsights (Scenario.extracting Scenario.three_facts)
          "sat-1" None "uuid-0" Scenario.talk Scenario.synced = (Val tt, w') ∧
    log w' = log Scenario.synced ++
      [Invoke "edge-agent-memory"
         (ReqExtractInsights "user-1" "sat-1" Scenario.talk);
       stored Scenario.fact1; stored Scenario.fact2; stored Scenario.fact3] ∧
    memories (EdgeMemory.state (hook w')) =
      [Scenario.remembered;
       EdgeMemory.kept (EdgeMemory.insight_record Scenario.fact1);
       EdgeMemory.kept (EdgeMemory.insight_record Scenario.fact2);
       EdgeMemory.kept (EdgeMemory.insight_record Scenario.fact3)].
Proof.
  exact (proj2 (proj2 (extractInsights_fan_out
           (Scenario.extracting Scenario.three_facts) "sat-1" None "uuid-0"))
         Scenario.talk Scenario.synced "user-1" Scenario.three_facts None _
         Scenario.fact1 Scenario.fact2 Scenario.fact3
         eq_refl (le_n 2) eq_refl eq_refl eq_refl eq_refl eq_refl eq_refl).
Defined.

(** The thresholds are strict: confidence 0.6 does not make a preference,
    0.5 does not make a pattern. *)
Example extractInsights_thresholds :
  log (EdgeMemory.extractInsights (Scenario.extracting Scenario.graded)
         "sat-1" None "uuid-0" Scenario.talk Scenario.synced).2 =
  log Scenario.synced ++
    [Invoke "edge-agent-memory"
       (ReqExtractInsights "user-1" "sat-1" Scenario.talk);
     Invoke "edge-agent-memory"
       (ReqEvolveKnowledge "user-1" "sat-1" "preference" "jazz" (JBool true));
     Invoke "edge-agent-memory"
       (ReqEvolveKnowledge "user-1" "sat-1" "behavior" "brief" (JBool true));
     Invoke "edge-agent-memory"
       (EdgeMemory.store_request "sat-1" None "uuid-0" "user-1" true
          (EdgeMemory.insight_record Scenario.fact1))].
Proof. vm_compute. reflexivity. Qed.

(** ** The health check and the failover *)

Section Failover.
Import DualHemisphere.
Variable backend : Backend.
Variables (satelliteId : string) (sessionId : option string).
Variable randomUUID : nat -> string.

Let health := checkFederationHealth backend satelliteId.
Let sovereign := processSovereign backend satelliteId sessionId randomUUID.
Let run := process backend satelliteId sessionId randomUUID.
Let asked := sovereign_request satelliteId sessionId randomUUID.
Let told := sovereign_reply backend satelliteId sessionId randomUUID.

(** The health check never raises. It answers [true] exactly when the ping
    resolves without an error; it touches no cell, logs the ping, and takes
    as long as the ping takes. *)
Lemma checkFederationHealth_spec (w : World Cells) :
  ∃ w', health w =
          (Val (negb (reports_failure (settled (ping_reply backend satelliteId w)))), w') ∧
    hook w' = hook w ∧
    log w' = log w ++ [Invoke "neural-link-ipc" (ReqPing satelliteId)] ∧
    clock w' = (clock w + latency (ping_reply backend satelliteId w))%N.
Proof.
  unfold health, checkFederationHealth, ping_reply, try_catch, bind, invoke.
  destruct (settled (on_ping backend _)) as [e | data [err |]];
    simpl; eexists; (split; [reflexivity |]); simpl; auto.
Qed.

(** The sovereign path: one invocation carrying the last ten turns; on
    delivery the exchange is pushed on the window, otherwise the exception
    leaves the value of the cells as it was. A reply with neither data nor
    error leaves behind the updater that was queued before the result was
    read, which raises when React runs it. *)
Lemma processSovereign_spec (query : string) (g : GovernanceMode)
    (w : World Cells) :
  ∃ w', sovereign query g w = (sovereign_outcome (settled (told query g w)), w') ∧
    log w' = log w ++ [Invoke "sovereign-fallback" (asked query g w)] ∧
    isSovereign (hook w') = isSovereign (hook w) ∧
    lastResult (hook w') = lastResult (hook w) ∧
    localMemory (hook w') =
      match renderError (hook w), delivered (settled (told query g w)) with
      | None, Some d => push_exchange query (sv_response d) (localMemory (hook w))
      | _, _ => localMemory (hook w)
      end ∧
    renderError (hook w') =
      match renderError (hook w) with
      | Some e => Some e
      | None =>
          if resolves_empty (settled (told query g w)) then Some TypeError
          else None
      end.
Proof.
  unfold sovereign, told, asked, processSovereign, processSovereign_of,
    sovereign_reply, sovereign_request, bind, get, session_or_fresh, invoke.
  simpl.
  destruct (settled (on_sovereign backend _)) as [e | [d |] [err |]];
    simpl; unfold setLocalMemory, modify; simpl;
    destruct (renderError (hook w)) eqn:Herr;
    simpl; eexists; (split; [reflexivity |]); simpl; rewrite ?Herr; auto.
Qed.

(** The sovereign path raises exactly when its invocation does not
    deliver. *)
Lemma sovereign_outcome_raise (s : Settled SovereignData) (e : Exn) :
  sovereign_outcome s = Raise e → delivered s = None.
Proof. destruct s as [? | [?|] [?|]]; simpl; congruence. Qed.

(** The context sent to the sovereign function has at most ten turns. *)
Lemma sovereign_context_bounded (query : string) (g : GovernanceMode)
    (w : World Cells) :
  ∃ sid, asked query g w =
           ReqSovereign query sid satelliteId g true
             (slice_last 10 (localMemory (hook w))) ∧
    length (slice_last 10 (localMemory (hook w))) ≤ 10.
Proof.
  eexists. split; [reflexivity |]. rewrite length_slice_last. lia.
Qed.

(** After an exchange is pushed the window has at most eleven turns. *)
Lemma push_exchange_length (query : string) (answer : option string)
    (window : list Turn) :
  length (push_exchange query answer window) = 9 `min` length window + 2.
Proof.
  unfold push_exchange. rewrite length_app, length_slice_last. reflexivity.
Qed.

Lemma count_invokes_app (fn : string) (l k : list Event) :
  count_invokes fn (l ++ k) = count_invokes fn l + count_invokes fn k.
Proof. unfold count_invokes. rewrite filter_app, length_app. reflexivity. Qed.

(** Setting the flag: one event, one cell. *)
Lemma setIsSovereign_spec (b : bool) (w : World Cells) :
  setIsSovereign b w = (Val tt, switched b w) ∧
  log (switched b w) = log w ++ [SetIsSovereign b] ∧
  isSovereign (hook (switched b w)) = b ∧
  localMemory (hook (switched b w)) = localMemory (hook w).
Proof. repeat split. Qed.

(** The callbacks of the render that saw the window of [w], called in a
    world whose window is the same, are those of the latest render. *)
Lemma hand_over_current (seen : list Turn) (query : string)
    (g : GovernanceMode) (w : World Cells) :
  localMemory (hook w) = seen →
  (setIsSovereign true ;;
   sovereignResult <- processSovereign_of backend satelliteId sessionId
                        randomUUID seen query g ;;
   setLastResult sovereignResult ;;
   ret sovereignResult) w =
  (setIsSovereign true ;;
   sovereignResult <- sovereign query g ;;
   setLastResult sovereignResult ;;
   ret sovereignResult) w.
Proof. intros <-. reflexivity. Qed.

(** The four statements with which [process] hands a query over to the
    sovereign path, in each of the three places where it does. *)
Lemma hand_over_spec (query : string) (g : GovernanceMode) (w : World Cells) :
  let w1 := switched true w in
  ∃ w',
    (setIsSovereign true ;;
     sovereignResult <- sovereign query g ;;
     setLastResult sovereignResult ;;
     ret sovereignResult) w =
      (sovereign_outcome (settled (told query g w1)), w') ∧
    log w' = log w ++
      [SetIsSovereign true; Invoke "sovereign-fallback" (asked query g w1)] ∧
    isSovereign (hook w') = true ∧
    (∀ r, sovereign_outcome (settled (told query g w1)) = Val r →
          lastResult (hook w') = Some r) ∧
    (∀ e, sovereign_outcome (settled (told query g w1)) = Raise e →
          w' = fell_back backend satelliteId sessionId randomUUID query g w1 ∧
          localMemory (hook w') = localMemory (hook w)) ∧
    length (localMemory (hook w')) ≤ 11 `max` length (localMemory (hook w)).
Proof.
  intros w1.
  destruct (setIsSovereign_spec true w) as (Hset & Hlog1 & Hflag1 & Hmem1).
  fold w1 in Hset, Hlog1, Hflag1, Hmem1. clearbody w1.
  destruct (processSovereign_spec query g w1)
    as (w2 & Hsov & Hlog2 & Hflag2 & Hlast2 & Hmem2 & _).
  assert (Hbound : length (localMemory (hook w2)) ≤
                   11 `max` length (localMemory (hook w))).
  { rewrite Hmem2, <- Hmem1.
    destruct (renderError (hook w1)); [lia |].
    destruct (delivered _); [rewrite push_exchange_length |]; lia. }
  assert (Hback : fell_back backend satelliteId sessionId randomUUID query g w1 = w2).
  { unfold fell_back. fold sovereign. rewrite Hsov. reflexivity. }
  rewrite (bind_val _ _ _ _ _ Hset).
  destruct (sovereign_outcome (settled (told query g w1))) as [r | e] eqn:Hout.
  - rewrite (bind_val _ _ _ _ _ Hsov).
    eexists. split; [reflexivity |]. simpl.
    rewrite Hlog2, Hlog1, <- (assoc_L (++)), Hflag2, Hflag1.
    repeat split; [congruence | discriminate | discriminate | exact Hbound].
  - rewrite (bind_raise _ _ _ _ _ Hsov).
    exists w2. split; [reflexivity |].
    rewrite Hlog2, Hlog1, <- (assoc_L (++)), Hflag2, Hflag1.
    repeat split; [discriminate | congruence | | exact Hbound].
    rewrite Hmem2, (sovereign_outcome_raise _ _ Hout), Hmem1.
    destruct (renderError (hook w1)); reflexivity.
Qed.

(** [process] when the health check answers [false]: the flag is set, the
    sovereign path runs once, and its end is the end of [process]. *)
Lemma process_unhealthy (query : string) (g : GovernanceMode)
    (w : World Cells) :
  (health w).1 = Val false →
  let w1 := switched true (pinged backend satelliteId w) in
  ∃ w', run query g w = (sovereign_outcome (settled (told query g w1)), w') ∧
    log w' = log w ++
      [Invoke "neural-link-ipc" (ReqPing satelliteId);
       SetIsSovereign true;
       Invoke "sovereign-fallback" (asked query g w1)] ∧
    isSovereign (hook w') = true ∧
    (∀ r, sovereign_outcome (settled (told query g w1)) = Val r →
          lastResult (hook w') = Some r) ∧
    length (localMemory (hook w')) ≤ 11 `max` length (localMemory (hook w)).
Proof.
  intros Hdown.
  destruct (checkFederationHealth_spec w) as (wp & Hh & Hhook & Hlog & _).
  assert (Hwp : pinged backend satelliteId w = wp).
  { unfold pinged. fold health. rewrite Hh. reflexivity. }
  rewrite Hwp. rewrite Hh in Hdown. simpl in Hdown. injection Hdown as Hdown.
  rewrite Hdown in Hh. intros w1.
  unfold run.
  change (process backend satelliteId sessionId randomUUID query g w)
    with (process_of backend satelliteId sessionId randomUUID
            (localMemory (hook w)) query g w).
  unfold process_of.
  rewrite (bind_val _ _ _ _ _ Hh). cbn [negb].
  rewrite hand_over_current by (rewrite Hhook; reflexivity).
  destruct (hand_over_spec query g wp)
    as (w' & Hrun & Hlog' & Hflag & Hlast & _ & Hbound).
  exists w'. split; [exact Hrun |].
  rewrite Hlog', Hlog, <- (assoc_L (++)), <- Hhook.
  repeat split; assumption.
Qed.

(** C5. When the health check answers [false], [process] sets the sovereign
    flag and makes one invocation of the sovereign function and none of the
    primary one; it ends as the sovereign path ends (its result, recorded as
    the last result, or its exception), with the flag still set. *)
Theorem process_unhealthy_goes_sovereign (query : string) (g : GovernanceMode)
    (w : World Cells) :
  (health w).1 = Val false →
  let w1 := switched true (pinged backend satelliteId w) in
  ∃ w', run query g w = (sovereign_outcome (settled (told query g w1)), w') ∧
    log w' = log w ++
      [Invoke "neural-link-ipc" (ReqPing satelliteId);
       SetIsSovereign true;
       Invoke "sovereign-fallback" (asked query g w1)] ∧
    count_invokes "chat" (log w') = count_invokes "chat" (log w) ∧
    count_invokes "sovereign-fallback" (log w') =
      S (count_invokes "sovereign-fallback" (log w)) ∧
    isSovereign (hook w') = true ∧
    ∀ r, sovereign_outcome (settled (told query g w1)) = Val r →
         lastResult (hook w') = Some r.
Proof.
  intros Hdown w1.
  destruct (process_unhealthy query g w Hdown)
    as (w' & Hrun & Hlog & Hflag & Hlast & _).
  exists w'. fold w1 in Hrun, Hlog, Hlast.
  split; [exact Hrun |]. split; [exact Hlog |].
  rewrite Hlog, !count_invokes_app.
  split; [unfold count_invokes; simpl; lia |].
  split; [unfold count_invokes; simpl; lia |].
  split; [exact Hflag | exact Hlast].
Qed.

(** The primary invocation: one event, no cell touched; what follows runs
    on its payload, unless the promise rejects. *)
Lemma chat_step {B} (query : string) (g : GovernanceMode)
    (k : option ChatData * option string -> M Cells B) (w : World Cells) :
  let wc := chatted backend satelliteId sessionId randomUUID query g w in
  (sid <- session_or_fresh sessionId randomUUID ;;
   r <- invoke backend on_chat "chat"
          (ReqChat query sid "dual-hemisphere" g satelliteId) None ;;
   k r) w =
    match settled (chat_reply backend satelliteId sessionId randomUUID query g w) with
    | Rejects e => (Raise e, wc)
    | Resolves data error => k (data, error) wc
    end ∧
  hook wc = hook w ∧
  log wc = log w ++
    [Invoke "chat" (chat_request satelliteId sessionId randomUUID query g w)].
Proof.
  unfold chatted, chat_reply, chat_request, bind, session_or_fresh, invoke.
  simpl. destruct (settled (on_chat backend _)); repeat split.
Qed.

(** [process] when the health check answers [true], case by case on how the
    primary invocation settles. *)
Lemma process_healthy (query : string) (g : GovernanceMode) (w : World Cells) :
  (health w).1 = Val true →
  let w2 := switched false (pinged backend satelliteId w) in
  let w3 := switched true
              (chatted backend satelliteId sessionId randomUUID query g w2) in
  let w4 := switched true
              (fell_back backend satelliteId sessionId randomUUID query g w3) in
  let prefix := log w ++
    [Invoke "neural-link-ipc" (ReqPing satelliteId);
     SetIsSovereign false;
     Invoke "chat" (chat_request satelliteId sessionId randomUUID query g w2)] in
  ∃ w',
    match settled (chat_reply backend satelliteId sessionId randomUUID query g w2) with
    | Resolves (Some d) None =>
        run query g w = (Val (chat_result d), w') ∧
        log w' = prefix ∧
        lastResult (hook w') = Some (chat_result d) ∧
        isSovereign (hook w') = false ∧
        renderError (hook w') = renderError (hook w) ∧
        localMemory (hook w') =
          match renderError (hook w) with
          | None => push_exchange query (Some (response (chat_result d)))
                      (localMemory (hook w))
          | Some _ => localMemory (hook w)
          end
    | Resolves _ (Some _) =>
        match sovereign_outcome (settled (told query g w3)) with
        | Val r =>
            run query g w = (Val r, w') ∧
            log w' = prefix ++
              [SetIsSovereign true;
               Invoke "sovereign-fallback" (asked query g w3)]
        | Raise _ =>
            run query g w = (sovereign_outcome (settled (told query g w4)), w') ∧
            log w' = prefix ++
              [SetIsSovereign true;
               Invoke "sovereign-fallback" (asked query g w3);
               SetIsSovereign true;
               Invoke "sovereign-fallback" (asked query g w4)]
        end ∧
        isSovereign (hook w') = true
    | _ =>
        run query g w = (sovereign_outcome (settled (told query g w3)), w') ∧
        log w' = prefix ++
          [SetIsSovereign true;
           Invoke "sovereign-fallback" (asked query g w3)] ∧
        isSovereign (hook w') = true
    end ∧
    length (localMemory (hook w')) ≤ 11 `max` length (localMemory (hook w)).
Proof.
  intros Hup.
  destruct (checkFederationHealth_spec w) as (wp & Hh & Hhook & Hlog & _).
  assert (Hwp : pinged backend satelliteId w = wp).
  { unfold pinged. fold health. rewrite Hh. reflexivity. }
  rewrite Hwp. rewrite Hh in Hup. simpl in Hup. injection Hup as Hup.
  rewrite Hup in Hh. clear Hup Hwp.
  intros w2.
  destruct (setIsSovereign_spec false wp) as (Hset2 & Hlog2 & Hflag2 & Hmem2).
  fold w2 in Hset2, Hlog2, Hflag2, Hmem2.
  assert (Hlast2 : lastResult (hook w2) = lastResult (hook wp)) by reflexivity.
  assert (Herr2 : renderError (hook w2) = renderError (hook wp)) by reflexivity.
  clearbody w2.
  assert (Hprefix : ∀ wc : World Cells,
    log wc = log w2 ++
      [Invoke "chat" (chat_request satelliteId sessionId randomUUID query g w2)] →
    log wc = log w ++
      [Invoke "neural-link-ipc" (ReqPing satelliteId);
       SetIsSovereign false;
       Invoke "chat" (chat_request satelliteId sessionId randomUUID query g w2)]).
  { intros wc ->. rewrite Hlog2, Hlog, <- !(assoc_L (++)). reflexivity. }
  assert (Hwindow : localMemory (hook w2) = localMemory (hook w)).
  { rewrite Hmem2, Hhook. reflexivity. }
  unfold run.
  change (process backend satelliteId sessionId randomUUID query g w)
    with (process_of backend satelliteId sessionId randomUUID
            (localMemory (hook w)) query g w).
  unfold process_of.
  rewrite (bind_val _ _ _ _ _ Hh). cbn [negb].
  rewrite (bind_val _ _ _ _ _ Hset2).
  unfold try_catch.
  match goal with
  | |- context [bind (session_or_fresh _ _) ?body] =>
      match body with
      | (fun sid => bind _ ?k) =>
          destruct (chat_step query g k w2) as (Hchat & Hhookc & Hlogc)
      end
  end.
  cbv zeta in Hchat. rewrite Hchat. clear Hchat.
  set (wc := chatted backend satelliteId sessionId randomUUID query g w2) in *.
  apply Hprefix in Hlogc. clearbody wc.
  set (w3 := switched true wc).
  set (w4 := switched true
               (fell_back backend satelliteId sessionId randomUUID query g w3)).
  assert (Hseen : localMemory (hook wc) = localMemory (hook w)).
  { rewrite Hhookc. exact Hwindow. }
  destruct (hand_over_spec query g wc)
    as (w5 & Hover & Hlog5 & Hflag5 & _ & Hraise5 & Hbound5).
  fold w3 in Hover, Hlog5, Hraise5.
  rewrite Hseen in Hbound5.
  assert (Hretry : ∀ e1,
    sovereign_outcome (settled (told query g w3)) = Raise e1 →
    ∃ w6,
      (setIsSovereign true ;;
       sovereignResult <- processSovereign_of backend satelliteId sessionId
                            randomUUID (localMemory (hook w)) query g ;;
       setLastResult sovereignResult ;;
       ret sovereignResult) w5 =
        (sovereign_outcome (settled (told query g w4)), w6) ∧
      log w6 = (log w ++
        [Invoke "neural-link-ipc" (ReqPing satelliteId);
         SetIsSovereign false;
         Invoke "chat" (chat_request satelliteId sessionId randomUUID query g w2)]) ++
        [SetIsSovereign true;
         Invoke "sovereign-fallback" (asked query g w3);
         SetIsSovereign true;
         Invoke "sovereign-fallback" (asked query g w4)] ∧
      isSovereign (hook w6) = true ∧
      length (localMemory (hook w6)) ≤ 11 `max` length (localMemory (hook w))).
  { intros e1 Hout.
    destruct (Hraise5 e1 Hout) as (Hw5 & Hmem5).
    rewrite hand_over_current by (rewrite Hmem5; exact Hseen).
    destruct (hand_over_spec query g w5)
      as (w6 & Hover6 & Hlog6 & Hflag6 & _ & _ & Hbound6).
    assert (Hw4 : switched true w5 = w4) by (unfold w4; rewrite Hw5; reflexivity).
    cbv zeta in Hover6, Hlog6. rewrite Hw4 in Hover6, Hlog6.
    exists w6. split; [exact Hover6 |].
    rewrite Hlog6, Hlog5, Hlogc, <- !(assoc_L (++)).
    split; [reflexivity |]. split; [exact Hflag6 |]. lia. }
  destruct (settled (chat_reply backend satelliteId sessionId randomUUID
                       query g w2)) as [e | [d |] [err |]]; cbv beta iota.
  - (* the promise rejects: the handler hands over *)
    rewrite hand_over_current by exact Hseen.
    rewrite Hover. exists w5.
    rewrite Hlog5, Hlogc, <- (assoc_L (++)).
    destruct (sovereign_outcome _); repeat split; assumption.
  - (* an error is reported, with data *)
    rewrite hand_over_current by exact Hseen.
    rewrite Hover.
    destruct (sovereign_outcome (settled (told query g w3))) as [r | e1] eqn:Hout.
    + exists w5. rewrite Hlog5, Hlogc, <- (assoc_L (++)).
      repeat split; assumption.
    + destruct (Hretry e1 eq_refl) as (w6 & -> & Hlog6 & Hflag6 & Hbound6).
      exists w6. split; [| exact Hbound6]. split; [| exact Hflag6].
      destruct (sovereign_outcome (settled (told query g w4)));
        (split; [reflexivity | exact Hlog6]).
  - (* delivered *)
    unfold deref, bind, ret, setLocalMemory, setLastResult, modify. simpl.
    assert (Herr : renderError (hook wc) = renderError (hook w)).
    { rewrite Hhookc, Herr2, Hhook. reflexivity. }
    assert (Hflagc : isSovereign (hook wc) = false).
    { rewrite Hhookc. exact Hflag2. }
    eexists. split; [split; [reflexivity |] |].
    + simpl. rewrite Herr, Hseen, Hflagc, Hlogc.
      destruct (renderError (hook w)) eqn:Hpending; simpl;
        rewrite ?Hflagc, ?Herr, ?Hseen; repeat split; reflexivity.
    + simpl. rewrite Herr, Hseen.
      destruct (renderError (hook w)); simpl;
        rewrite ?Hseen, ?push_exchange_length; lia.
  - (* an error is reported, without data *)
    rewrite hand_over_current by exact Hseen.
    rewrite Hover.
    destruct (sovereign_outcome (settled (told query g w3))) as [r | e1] eqn:Hout.
    + exists w5. rewrite Hlog5, Hlogc, <- (assoc_L (++)).
      repeat split; assumption.
    + destruct (Hretry e1 eq_refl) as (w6 & -> & Hlog6 & Hflag6 & Hbound6).
      exists w6. split; [| exact Hbound6]. split; [| exact Hflag6].
      destruct (sovereign_outcome (settled (told query g w4)));
        (split; [reflexivity | exact Hlog6]).
  - (* no error and no data: reading the response raises *)
    rewrite (bind_raise (deref None) _ wc wc TypeError eq_refl).
    cbv beta iota.
    rewrite hand_over_current by exact Hseen.
    rewrite Hover. exists w5.
    rewrite Hlog5, Hlogc, <- (assoc_L (++)).
    destruct (sovereign_outcome _); repeat split; assumption.
Qed.

(** C10. Sovereign mode does not stick. Whatever the flag was before the
    call (set by an earlier failover or by [forceSovereign]), when the health
    check answers [true] the flag is set to [false] before the primary
    function is invoked; it is [false] at the end when the primary function
    delivers, and it is set again only when the primary invocation reports
    an error or raises. When the health check does not answer [true], the
    flag is set. *)
Theorem sovereign_mode_not_sticky (query : string) (g : GovernanceMode)
    (w : World Cells) :
  match (health w).1 with
  | Val true =>
      let w2 := switched false (pinged backend satelliteId w) in
      ∃ r w' tail, run query g w = (r, w') ∧
        log w' = log w ++
          [Invoke "neural-link-ipc" (ReqPing satelliteId);
           SetIsSovereign false;
           Invoke "chat"
             (chat_request satelliteId sessionId randomUUID query g w2)] ++
          tail ∧
        match delivered (settled (chat_reply backend satelliteId sessionId
                                    randomUUID query g w2)) with
        | Some _ => tail = [] ∧ isSovereign (hook w') = false
        | None =>
            (∃ tail', tail = SetIsSovereign true :: tail') ∧
            isSovereign (hook w') = true
        end
  | _ => isSovereign (hook (run query g w).2) = true
  end.
Proof.
  destruct (checkFederationHealth_spec w) as (wp & Hh & _).
  destruct ((health w).1) as [[|] | e] eqn:Hres.
  - intros w2.
    destruct (process_healthy query g w Hres) as (w' & Hcase & _).
    fold w2 in Hcase. cbv zeta in Hcase.
    destruct (settled (chat_reply backend satelliteId sessionId randomUUID
                         query g w2)) as [e | [d |] [err |]]; simpl.
    + destruct Hcase as (Hrun & Hlog & Hflag).
      eexists _, w', _. split; [exact Hrun |].
      split; [rewrite Hlog, <- (assoc_L (++)); reflexivity |]. eauto.
    + destruct Hcase as (Hcase & Hflag).
      destruct (sovereign_outcome _) as [r | e];
        destruct Hcase as (Hrun & Hlog);
        eexists _, w', _; (split; [exact Hrun |]);
        (split; [rewrite Hlog, <- (assoc_L (++)); reflexivity |]); eauto.
    + destruct Hcase as (Hrun & Hlog & _ & Hflag & _).
      eexists _, w', []. split; [exact Hrun |].
      split; [rewrite Hlog; reflexivity |]. auto.
    + destruct Hcase as (Hcase & Hflag).
      destruct (sovereign_outcome _) as [r | e];
        destruct Hcase as (Hrun & Hlog);
        eexists _, w', _; (split; [exact Hrun |]);
        (split; [rewrite Hlog, <- (assoc_L (++)); reflexivity |]); eauto.
    + destruct Hcase as (Hrun & Hlog & Hflag).
      eexists _, w', _. split; [exact Hrun |].
      split; [rewrite Hlog, <- (assoc_L (++)); reflexivity |]. eauto.
  - destruct (process_unhealthy query g w Hres) as (w' & Hrun & _ & Hflag & _).
    rewrite Hrun. exact Hflag.
  - rewrite Hh in Hres. discriminate Hres.
Qed.

(** Whatever happens in a call, the window never grows beyond eleven
    turns (or beyond what it held, if that was more). *)
Lemma process_window_bound (query : string) (g : GovernanceMode)
    (w : World Cells) :
  length (localMemory (hook (run query g w).2)) ≤
  11 `max` length (localMemory (hook w)).
Proof.
  destruct (checkFederationHealth_spec w) as (wp & Hh & _).
  destruct ((health w).1) as [[|] | e] eqn:Hres.
  - destruct (process_healthy query g w Hres) as (w' & Hcase & Hbound).
    cbv zeta in Hcase.
    assert (Hrun : ∃ r, run query g w = (r, w')).
    { destruct (settled (chat_reply _ _ _ _ _ _ _)) as [? | [?|] [?|]];
        try destruct (sovereign_outcome (settled (told query g _)));
        repeat match goal with H : _ ∧ _ |- _ => destruct H end;
        eauto. }
    destruct Hrun as (r & ->). exact Hbound.
  - destruct (process_unhealthy query g w Hres) as (w' & -> & _ & _ & _ & Hbound).
    exact Hbound.
  - rewrite Hh in Hres. discriminate Hres.
Qed.

End Failover.

(** The federation is down and the edge answers: one sovereign invocation,
    no primary one. *)
Lemma process_unhealthy_witness :
  ∃ w', DualHemisphere.process Scenario.isolated "sat-1" None Scenario.no_uuid
          "hello" Standard DualHemisphere.mount =
          (Val (DualHemisphere.sovereign_result
                  (Scenario.local_answer "from the edge")), w') ∧
    log w' =
      [Invoke "neural-link-ipc" (ReqPing "sat-1");
       SetIsSovereign true;
       Invoke "sovereign-fallback"
         (ReqSovereign "hello" "uuid-0" "sat-1" Standard true [])] ∧
    count_invokes "chat" (log w') = 0 ∧
    count_invokes "sovereign-fallback" (log w') = 1 ∧
    DualHemisphere.isSovereign (hook w') = true ∧
    ∀ r, Val (DualHemisphere.sovereign_result
                (Scenario.local_answer "from the edge")) = Val r →
         DualHemisphere.lastResult (hook w') = Some r.
Proof.
  exact (process_unhealthy_goes_sovereign Scenario.isolated "sat-1" None
           Scenario.no_uuid "hello" Standard DualHemisphere.mount eq_refl).
Defined.

(** Forcing sovereign mode does not survive a healthy call: the primary
    function is invoked and the flag is cleared. *)
Example forceSovereign_is_overridden :
  let forced := (DualHemisphere.forceSovereign true DualHemisphere.mount).2 in
  let done := (DualHemisphere.process Scenario.federated "sat-1" None
                 Scenario.no_uuid "hello" Standard forced).2 in
  DualHemisphere.isSovereign (hook forced) = true ∧
  DualHemisphere.isSovereign (hook done) = false ∧
  log done =
    [SetIsSovereign true;
     Invoke "neural-link-ipc" (ReqPing "sat-1");
     SetIsSovereign false;
     Invoke "chat" (ReqChat "hello" "uuid-0" "dual-hemisphere" Standard "sat-1")].
Proof. vm_compute. auto. Qed.

(** C6, at the input where the code departs from it. The ping answers, the
    primary function reports an error and the first sovereign invocation
    fails: the failure does not reach the caller; the handler of the
    primary path catches it and invokes the sovereign function a second
    time, whose answer [process] returns. *)
Theorem process_retries_sovereign_after_reported_error :
  let ran := DualHemisphere.process Scenario.flaky "sat-1" None
               Scenario.no_uuid "hello" Standard DualHemisphere.mount in
  ran.1 = Val (DualHemisphere.sovereign_result
                 (Scenario.local_answer "second try")) ∧
  count_invokes "chat" (log ran.2) = 1 ∧
  count_invokes "sovereign-fallback" (log ran.2) = 2 ∧
  log ran.2 =
    [Invoke "neural-link-ipc" (ReqPing "sat-1");
     SetIsSovereign false;
     Invoke "chat" (ReqChat "hello" "uuid-0" "dual-hemisphere" Standard "sat-1");
     SetIsSovereign true;
     Invoke "sovereign-fallback"
       (ReqSovereign "hello" "uuid-0" "sat-1" Standard true []);
     SetIsSovereign true;
     Invoke "sovereign-fallback"
       (ReqSovereign "hello" "uuid-0" "sat-1" Standard true [])].
Proof. vm_compute. auto. Qed.

(** C2, at the input where the code departs from it. After six exchanges
    the window holds eleven turns, on the primary path and on the sovereign
    path alike: each exchange keeps the last nine turns and adds two. *)
Theorem window_holds_eleven_turns :
  length (DualHemisphere.localMemory (hook
    (DualHemisphere.ask_all Scenario.federated "sat-1" None Scenario.no_uuid
       Scenario.six_queries DualHemisphere.mount).2)) = 11 ∧
  length (DualHemisphere.localMemory (hook
    (DualHemisphere.ask_all Scenario.isolated "sat-1" None Scenario.no_uuid
       Scenario.six_queries DualHemisphere.mount).2)) = 11.
Proof. vm_compute. auto. Qed.

(** C9, at the input where the code departs from it. A ping that answers
    without error after ten seconds is waited for in full and reported as
    healthy: the abort scheduled at 3000 ms has no effect, since the
    controller's signal is not passed to the invocation. With the signal
    passed, the same ping is cut at 3000 ms and reported unhealthy. *)
Theorem checkFederationHealth_is_not_bounded :
  let checked := DualHemisphere.checkFederationHealth Scenario.slow "sat-1"
                   DualHemisphere.mount in
  let bounded := DualHemisphere.checkFederationHealth_with_signal Scenario.slow
                   "sat-1" DualHemisphere.mount in
  checked.1 = Val true ∧ clock checked.2 = 10000%N ∧
  (DualHemisphere.FEDERATION_TIMEOUT_MS < clock checked.2)%N ∧
  bounded.1 = Val false ∧ clock bounded.2 = DualHemisphere.FEDERATION_TIMEOUT_MS.
Proof. vm_compute. auto. Qed.

(** * Further properties of useEdgeMemory *)

Section Knowledge.
Import EdgeMemory.
Variable backend : Backend.
Variables (satelliteId : string) (sessionId : option string) (uuid : string).

Let evolve := evolveKnowledge backend satelliteId.

(** The entry a remote answer [ev] gives. *)
Let entry_of (value : Json) (type : string) (ev : Evolved) : KnowledgeEntry :=
  {| k_value := value;
     k_confidence := last_elem (default [0.5%float] (confidence_trajectory ev));
     k_observations := count_or (observations_count ev) 1;
     k_type := type |}.

(** The entry seeded without an identity. *)
Let seeded (value : Json) (type : string) : KnowledgeEntry :=
  {| k_value := value; k_confidence := Some 0.5%float;
     k_observations := 1; k_type := type |}.

(** [evolveKnowledge] in full: it never raises, never writes the cache, and
    changes at most the entry under [key]. *)
Lemma evolveKnowledge_spec (key : string) (value : Json) (type : string)
    (w : World Cells) :
  ∃ w', evolve key value type w = (Val tt, w') ∧
    userIdRef (hook w') = userIdRef (hook w) ∧
    localStorage w' = localStorage w ∧
    match userIdRef (hook w) with
    | None =>
        log w' = log w ∧
        state (hook w') = put_knowledge key (seeded value type) (state (hook w))
    | Some userId =>
        log w' = log w ++
          [Invoke "edge-agent-memory"
             (ReqEvolveKnowledge userId satelliteId type key value)] ∧
        state (hook w') =
          match evolved_of (settled (evolve_reply backend satelliteId userId
                                       key value type w)) with
          | Some ev => put_knowledge key (entry_of value type ev) (state (hook w))
          | None => state (hook w)
          end
    end.
Proof.
  unfold evolve, evolveKnowledge, evolve_reply, bind, get.
  destruct (userIdRef (hook w)) as [userId |] eqn:Hid.
  - unfold try_catch, bind, invoke.
    destruct (settled (on_evolve_knowledge backend _)) as [e | data error];
      simpl.
    + eexists. split; [reflexivity |]. simpl. repeat split; auto.
    + destruct (data ≫= evolved) as [ev |]; simpl;
        eexists; (split; [reflexivity |]); simpl; repeat split; auto.
  - simpl. eexists. split; [reflexivity |]. simpl. repeat split; auto.
Qed.

(** Without an identity, evolving a key seeds it locally with confidence 0.5
    and one observation and calls no remote function; evolving the same key
    again overwrites the entry (the observations do not add up) and leaves
    every other key, the memories and the session alone. *)
Theorem evolveKnowledge_anonymous_overwrites
    (key : string) (v1 v2 : Json) (t1 t2 : string) (w : World Cells) :
  userIdRef (hook w) = None →
  ∃ w', (evolve key v1 t1 ;; evolve key v2 t2) w = (Val tt, w') ∧
    log w' = log w ∧
    knowledge (state (hook w')) !! key =
      Some {| k_value := v2; k_confidence := Some 0.5%float;
              k_observations := 1; k_type := t2 |} ∧
    (∀ other, other ≠ key →
       knowledge (state (hook w')) !! other =
       knowledge (state (hook w)) !! other) ∧
    memories (state (hook w')) = memories (state (hook w)) ∧
    session (state (hook w')) = session (state (hook w)).
Proof.
  intros Hid.
  destruct (evolveKnowledge_spec key v1 t1 w) as (w1 & Hrun1 & Hid1 & _ & Hcase1).
  rewrite Hid in Hcase1, Hid1. destruct Hcase1 as (Hlog1 & Hst1).
  destruct (evolveKnowledge_spec key v2 t2 w1) as (w2 & Hrun2 & _ & _ & Hcase2).
  rewrite Hid1 in Hcase2. destruct Hcase2 as (Hlog2 & Hst2).
  exists w2. split; [rewrite (bind_val _ _ _ _ _ Hrun1); exact Hrun2 |].
  rewrite Hlog2, Hlog1, Hst2, Hst1. simpl.
  split; [reflexivity |].
  split; [apply lookup_insert_eq |].
  split; [| split; reflexivity].
  intros other Hne. rewrite !lookup_insert_ne by congruence. reflexivity.
Qed.

(** With an identity, when the remote answer carries no [evolved] member
    (the promise rejects, the data is [null], or the member is missing),
    [evolveKnowledge] returns without raising, has made exactly one
    invocation, and leaves the whole state as it was: the stale value stays. *)
Theorem evolveKnowledge_failure_keeps_state
    (userId key : string) (value : Json) (type : string) (w : World Cells) :
  userIdRef (hook w) = Some userId →
  evolved_of (settled (evolve_reply backend satelliteId userId key value type w))
    = None →
  ∃ w', evolve key value type w = (Val tt, w') ∧
    log w' = log w ++
      [Invoke "edge-agent-memory"
         (ReqEvolveKnowledge userId satelliteId type key value)] ∧
    hook w' = hook w ∧
    localStorage w' = localStorage w.
Proof.
  intros Hid Hnone.
  destruct (evolveKnowledge_spec key value type w)
    as (w' & Hrun & Hid' & Hls & Hcase).
  rewrite Hid in Hcase, Hid'. rewrite Hnone in Hcase.
  destruct Hcase as (Hlog & Hst).
  exists w'. repeat split; try assumption.
  destruct (hook w') as [st' u'], (hook w) as [st u]. simpl in *. congruence.
Qed.

(** With an identity, when the remote answer carries [evolved], the entry
    under [key] takes the given value and type, the LAST element of the
    confidence trajectory (0.5 when the trajectory is missing, no confidence
    at all when it is empty) and the reported observation count (1 when it
    is missing or zero); every other key is left alone. The [error] member
    of the answer is not looked at. *)
Theorem evolveKnowledge_takes_last_confidence
    (userId key : string) (value : Json) (type : string) (ev : Evolved)
    (w : World Cells) :
  userIdRef (hook w) = Some userId →
  evolved_of (settled (evolve_reply backend satelliteId userId key value type w))
    = Some ev →
  ∃ w', evolve key value type w = (Val tt, w') ∧
    knowledge (state (hook w')) !! key =
      Some {| k_value := value;
              k_confidence :=
                match confidence_trajectory ev with
                | None => Some 0.5%float
                | Some trajectory => last trajectory
                end;
              k_observations :=
                match observations_count ev with
                | None | Some 0 => 1
                | Some n => n
                end;
              k_type := type |} ∧
    (∀ other, other ≠ key →
       knowledge (state (hook w')) !! other =
       knowledge (state (hook w)) !! other) ∧
    memories (state (hook w')) = memories (state (hook w)).
Proof.
  intros Hid Hsome.
  destruct (evolveKnowledge_spec key value type w)
    as (w' & Hrun & _ & _ & Hcase).
  rewrite Hid in Hcase. rewrite Hsome in Hcase. destruct Hcase as (_ & Hst).
  exists w'. split; [exact Hrun |]. rewrite Hst. simpl.
  split.
  - rewrite lookup_insert_eq. unfold entry_of, last_elem. f_equal.
    destruct (confidence_trajectory ev), (observations_count ev) as [[| n] |];
      reflexivity.
  - split; [| reflexivity].
    intros other Hne. rewrite lookup_insert_ne by congruence. reflexivity.
Qed.

End Knowledge.

Section Cache.
Import EdgeMemory.
Variable backend : Backend.
Variables (satelliteId : string) (sessionId : option string) (uuid : string).

Let load := loadFromLocalStorage satelliteId.
Let save := saveToLocalStorage satelliteId.
Let cached := cached_snapshot satelliteId.
Let writable := cache_writable satelliteId.
Let key := cache_key satelliteId.
Let resync := rehydrateInternal backend satelliteId sessionId uuid.

(** The state after loading: the cached lists when the entry is readable,
    the state as it was otherwise. *)
Let loaded (w : World Cells) : EdgeMemoryState :=
  match cached w with
  | Some c => load_cached c (state (hook w))
  | None => state (hook w)
  end.

(** [rehydrateInternal] when the remote call delivers. *)
Lemma rehydrateInternal_delivered (userId : string) (d : RehydrateData)
    (w : World Cells) :
  delivered (settled (rehydrate_reply backend satelliteId sessionId uuid userId w))
    = Some d →
  let now := (clock w +
              latency (rehydrate_reply backend satelliteId sessionId uuid userId w))%N in
  ∃ w', resync userId w = (Val tt, w') ∧
    userIdRef (hook w') = userIdRef (hook w) ∧
    state (hook w') = apply_snapshot (rehydrated d now) (state (hook w)) ∧
    storageFull w' = storageFull w ∧
    log w' = log w ++
      [Invoke "edge-agent-memory"
         (ReqRehydrate userId satelliteId (currentSessionId sessionId uuid))] ∧
    localStorage w' =
      if writable w
      then <[key := Stored (merge_snapshot (default empty_snapshot (cached w))
                              (rehydrated d now) now)]> (localStorage w)
      else localStorage w.
Proof.
  intros Hok now. subst now.
  unfold resync, rehydrateInternal, rehydrate_reply in *.
  unfold try_catch at 1. unfold bind at 1. unfold invoke.
  set (history := log w ++ [_]) in *.
  destruct (settled (on_rehydrate backend history)) as [e | [d' |] [err |]];
    simpl in Hok; try discriminate.
  injection Hok as ->.
  unfold bind, deref, ret, Date_now, setState, modify. simpl.
  match goal with
  | |- context [saveToLocalStorage _ ?data ?w1] =>
      destruct (saveToLocalStorage_spec satelliteId data w1)
        as (w2 & Hsave & Hhook & Hlog & Hls);
      assert (Hfull : storageFull w2 = storageFull w1)
  end.
  { revert Hsave. unfold saveToLocalStorage, try_catch, bind, getItem, setItem,
      Date_now, JSON_stringify. simpl.
    destruct (localStorage w !! cache_key satelliteId) as [[| | c] |];
      simpl; destruct (storageFull w); simpl; intros [= <-]; reflexivity. }
  rewrite Hsave. exists w2. split; [reflexivity |].
  rewrite Hhook, Hfull, Hls, Hlog. simpl. repeat split.
Qed.

(** [rehydrateInternal] when the remote call does not deliver. *)
Lemma rehydrateInternal_failed (userId : string) (w : World Cells) :
  delivered (settled (rehydrate_reply backend satelliteId sessionId uuid userId w))
    = None →
  ∃ w', resync userId w = (Val tt, w') ∧
    userIdRef (hook w') = userIdRef (hook w) ∧
    state (hook w') = set_offline (loaded w) ∧
    storageFull w' = storageFull w ∧
    log w' = log w ++
      [Invoke "edge-agent-memory"
         (ReqRehydrate userId satelliteId (currentSessionId sessionId uuid))] ∧
    localStorage w' = localStorage w.
Proof.
  intros Hfail.
  unfold resync, rehydrateInternal, rehydrate_reply in *.
  unfold try_catch at 1. unfold bind at 1. unfold invoke.
  set (history := log w ++ [_]) in *.
  set (w1 := {| hook := hook w; localStorage := localStorage w;
                storageFull := storageFull w; log := history;
                clock := (clock w + latency (on_rehydrate backend history))%N |}).
  assert (Hfallback : ∃ w',
    (loadFromLocalStorage satelliteId ;; setState set_offline) w1 = (Val tt, w') ∧
    userIdRef (hook w') = userIdRef (hook w) ∧
    state (hook w') = set_offline (loaded w) ∧
    storageFull w' = storageFull w ∧
    log w' = history ∧
    localStorage w' = localStorage w).
  { destruct (loadFromLocalStorage_spec satelliteId w1)
      as (w2 & Hload & Hls & Hlog & Hid & Hst).
    assert (Hfull : storageFull w2 = storageFull w1).
    { revert Hload. unfold loadFromLocalStorage, try_catch, bind, getItem,
        JSON_parse, setState, modify, throw, ret. simpl.
      destruct (localStorage w !! cache_key satelliteId) as [[| | c] |];
        simpl; intros [= <-]; reflexivity. }
    rewrite (bind_val _ _ _ _ _ Hload).
    eexists. split; [reflexivity |]. simpl.
    rewrite Hid, Hst, Hls, Hfull, Hlog. repeat split. }
  simpl.
  destruct (settled (on_rehydrate backend history)) as [e | [d |] [err |]];
    simpl in *; try discriminate;
    destruct Hfallback as (w' & Hrun & Hrest);
    exists w'; (split; [| exact Hrest]);
    try rewrite Hrun; done.
Qed.

(** Writing and reading back. With a store that takes the write, saving a
    partial snapshot and then loading gives, for each of the three lists,
    the saved member when the snapshot has it and the member of the earlier
    entry when it does not (a shallow merge); what neither has comes back
    empty. The entry is stamped with the time of the save, and the hook goes
    offline on the load. *)
Theorem save_then_load_round_trip (data : Snapshot) (w : World Cells) :
  writable w = true →
  let earlier := default empty_snapshot (cached w) in
  ∃ w', (save data ;; load) w = (Val tt, w') ∧
    cached w' = Some (merge_snapshot earlier data (clock w)) ∧
    memories (state (hook w')) =
      default [] (s_memories data ∪ s_memories earlier) ∧
    knowledge (state (hook w')) =
      default ∅ (s_knowledge data ∪ s_knowledge earlier) ∧
    session (state (hook w')) =
      default None (s_session data ∪ s_session earlier) ∧
    isOnline (state (hook w')) = false.
Proof.
  intros Hwr earlier.
  destruct (saveToLocalStorage_spec satelliteId data w)
    as (w1 & Hsave & Hhook & _ & Hls).
  fold writable cached in Hls. rewrite Hwr in Hls. fold earlier in Hls.
  destruct (loadFromLocalStorage_spec satelliteId w1)
    as (w2 & Hload & Hls2 & _ & _ & Hst).
  assert (Hcached : cached_snapshot satelliteId w1 =
                    Some (merge_snapshot earlier data (clock w))).
  { unfold cached_snapshot. rewrite Hls, lookup_insert_eq. reflexivity. }
  rewrite Hcached in Hst.
  exists w2. split; [rewrite (bind_val _ _ _ _ _ Hsave); exact Hload |].
  split.
  - unfold cached, cached_snapshot. rewrite Hls2.
    exact Hcached.
  - rewrite Hst. simpl. repeat split.
Qed.

(** When the auth listener reports a sign-out, the identity is dropped and
    nothing is fetched or written, but the user's data is not cleared: with
    a readable cache entry (the entry is per satellite, not per user) the
    memories, knowledge and session become the cached ones and the hook goes
    offline; with none, the whole state stays as the signed-in user left it. *)
Theorem sign_out_keeps_data (w : World Cells) :
  ∃ w', onAuthStateChange backend satelliteId sessionId uuid None w = (Val tt, w') ∧
    userIdRef (hook w') = None ∧
    log w' = log w ∧
    localStorage w' = localStorage w ∧
    match cached w with
    | Some c =>
        memories (state (hook w')) = default [] (s_memories c) ∧
        knowledge (state (hook w')) = default ∅ (s_knowledge c) ∧
        session (state (hook w')) = default None (s_session c) ∧
        isOnline (state (hook w')) = false
    | None => state (hook w') = state (hook w)
    end.
Proof.
  unfold onAuthStateChange.
  set (w1 := (set_userId None w).2).
  assert (Hset : set_userId None w = (Val tt, w1)) by reflexivity.
  rewrite (bind_val _ _ _ _ _ Hset).
  destruct (loadFromLocalStorage_spec satelliteId w1)
    as (w2 & Hload & Hls & Hlog & Hid & Hst).
  exists w2. split; [exact Hload |].
  rewrite Hid, Hlog, Hls, Hst.
  change (cached_snapshot satelliteId w1) with (cached w).
  repeat split.
  destruct (cached w); simpl; repeat split.
Qed.

(** The mount effect. When [getUser] rejects, [initUser] ends there with
    that error (it has no handler): nothing is called and no cell is
    written, so the loading flag, set when the hook mounts, is not cleared.
    When [getUser] resolves, [initUser] does not raise and ends with the
    loading flag cleared: with no signed-in user it calls nothing and
    changes nothing else (the hook stays "online" although nothing was
    fetched); with a user it records the identity and makes exactly one
    [rehydrate] invocation, and the hook is online afterwards exactly when
    that invocation delivered. *)
Theorem initUser_loading_flag (answer : AuthAnswer) (w : World Cells) :
  match answer with
  | AuthRejects e =>
      initUser backend satelliteId sessionId uuid answer w = (Raise e, w) ∧
      ∀ userId storage full,
        isLoading (state (hook
          (initUser backend satelliteId sessionId uuid answer
             (mount userId storage full)).2)) = true
  | AuthResolves user =>
      ∃ w', initUser backend satelliteId sessionId uuid answer w = (Val tt, w') ∧
        isLoading (state (hook w')) = false ∧
        match user with
        | None =>
            log w' = log w ∧ localStorage w' = localStorage w ∧
            userIdRef (hook w') = userIdRef (hook w) ∧
            state (hook w') = set_loaded (state (hook w))
        | Some id =>
            userIdRef (hook w') = Some id ∧
            count_invokes "edge-agent-memory" (log w') =
              S (count_invokes "edge-agent-memory" (log w)) ∧
            isOnline (state (hook w')) =
              bool_decide (is_Some (delivered (settled
                (rehydrate_reply backend satelliteId sessionId uuid id w))))
        end
  end.
Proof.
  unfold initUser. destruct answer as [e | user]; [split; reflexivity |].
  rewrite (bind_val (getUser (AuthResolves user)) _ w w user eq_refl).
  destruct user as [id |]; cbv beta iota.
  - set (w1 := (set_userId (Some id) w).2).
    assert (Hset : set_userId (Some id) w = (Val tt, w1)) by reflexivity.
    unfold bind at 1. rewrite (bind_val _ _ _ _ _ Hset).
    change (rehydrate_reply backend satelliteId sessionId uuid id w)
      with (rehydrate_reply backend satelliteId sessionId uuid id w1).
    destruct (delivered (settled (rehydrate_reply backend satelliteId sessionId
                                    uuid id w1))) as [d |] eqn:Hd.
    + destruct (rehydrateInternal_delivered id d w1 Hd)
        as (w2 & Hrun & Hid & Hst & _ & Hlog & _).
      fold resync. rewrite Hrun. eexists. split; [reflexivity |]. simpl.
      rewrite Hst, Hid, Hlog, count_invokes_app. simpl.
      repeat split. unfold count_invokes. simpl. lia.
    + destruct (rehydrateInternal_failed id w1 Hd)
        as (w2 & Hrun & Hid & Hst & _ & Hlog & _).
      fold resync. rewrite Hrun. eexists. split; [reflexivity |]. simpl.
      rewrite Hst, Hid, Hlog, count_invokes_app. simpl.
      repeat split. unfold count_invokes. simpl. lia.
  - eexists. split; [reflexivity |]. simpl. repeat split.
Qed.

End Cache.

(** ** The quota condition is a frame of every operation *)

Lemma keeps_quota_ret {S A} (a : A) : keeps_quota (@ret S A a).
Proof. intros w. reflexivity. Qed.

Lemma keeps_quota_throw {S A} (e : Exn) : keeps_quota (@throw S A e).
Proof. intros w. reflexivity. Qed.

Lemma keeps_quota_bind {S A B} (m : M S A) (k : A -> M S B) :
  keeps_quota m → (∀ a, keeps_quota (k a)) → keeps_quota (bind m k).
Proof.
  intros Hm Hk w. unfold bind. specialize (Hm w).
  destruct (m w) as [[a | e] w1]; simpl in *; [| exact Hm].
  rewrite (Hk a w1). exact Hm.
Qed.

Lemma keeps_quota_try {S A} (m : M S A) (h : Exn -> M S A) :
  keeps_quota m → (∀ e, keeps_quota (h e)) → keeps_quota (try_catch m h).
Proof.
  intros Hm Hh w. unfold try_catch. specialize (Hm w).
  destruct (m w) as [[a | e] w1]; simpl in *; [exact Hm |].
  rewrite (Hh e w1). exact Hm.
Qed.

Lemma keeps_quota_for_of {S A} (xs : list A) (body : A -> M S unit) :
  (∀ x, keeps_quota (body x)) → keeps_quota (for_of xs body).
Proof.
  intros Hbody. induction xs as [| x rest IH]; simpl.
  - apply keeps_quota_ret.
  - apply keeps_quota_bind; auto.
Qed.

Lemma keeps_quota_get {S} : keeps_quota (@get S).
Proof. intros w. reflexivity. Qed.

Lemma keeps_quota_modify {S} (f : S -> S) : keeps_quota (modify f).
Proof. intros w. reflexivity. Qed.

Lemma keeps_quota_now {S} : keeps_quota (@Date_now S).
Proof. intros w. reflexivity. Qed.

Lemma keeps_quota_deref {S D} (data : option D) : keeps_quota (@deref S D data).
Proof. destruct data; intros w; reflexivity. Qed.

Lemma keeps_quota_getItem {S} (k : string) : keeps_quota (@getItem S k).
Proof. intros w. reflexivity. Qed.

Lemma keeps_quota_setItem {S} (k : string) (text : Item) :
  keeps_quota (@setItem S k text).
Proof.
  intros w. unfold setItem. destruct (storageFull w) eqn:Hfull; simpl; done.
Qed.

Lemma keeps_quota_parse {S} (text : Item) : keeps_quota (@JSON_parse S text).
Proof. destruct text; intros w; reflexivity. Qed.

Lemma keeps_quota_invoke {S D} (backend : Backend)
    (ask : Backend -> list Event -> Reply D) (fn : string) (body : Request)
    (signal : option AbortController) :
  keeps_quota (@invoke backend S D ask fn body signal).
Proof.
  intros w. unfold invoke.
  destruct signal as [c |]; [destruct (N.ltb _ _) |];
    try destruct (settled _); reflexivity.
Qed.

Create HintDb quota.
#[local] Hint Resolve keeps_quota_ret keeps_quota_throw keeps_quota_get
  keeps_quota_modify keeps_quota_now keeps_quota_deref keeps_quota_getItem
  keeps_quota_setItem keeps_quota_parse keeps_quota_invoke : quota.

(** Walks through a computation of the hook, statement by statement. *)
Ltac frame_quota :=
  repeat first
    [ progress intros
    | apply keeps_quota_bind
    | apply keeps_quota_try
    | apply keeps_quota_for_of
    | solve [auto with quota]
    | match goal with
      | |- keeps_quota (match ?x with _ => _ end) => destruct x
      | |- keeps_quota (if ?b then _ else _) => destruct b
      | |- keeps_quota (let '(_, _) := ?r in _) => destruct r
      end ].

Section Usage.
Import EdgeMemory.
Variable backend : Backend.
Variables (satelliteId : string) (sessionId : option string) (uuid : string).

Let act := perform backend satelliteId sessionId uuid.
Let cached := cached_snapshot satelliteId.
Let writable := cache_writable satelliteId.
Let key := cache_key satelliteId.

Lemma perform_keeps_quota (c : Call) : keeps_quota (act c).
Proof.
  destruct c; unfold act, perform, extractInsights, rehydrate,
    onAuthStateChange, rehydrateInternal;
    repeat first
      [ progress (unfold storeMemory, evolveKnowledge, updateSession,
                    loadFromLocalStorage, saveToLocalStorage, setState,
                    set_userId)
      | progress (cbv zeta)
      | progress frame_quota ].
Qed.

(** [extractInsights] never raises and leaves the identity, the online flag
    and the cache alone, whatever the remote answer. *)
Lemma extractInsights_total (conversation : list Turn) (w : World Cells) :
  ∃ w', extractInsights backend satelliteId sessionId uuid conversation w =
          (Val tt, w') ∧
    same_session w w'.
Proof.
  assert (Hrefl : ∀ w0 : World Cells, same_session w0 w0) by (repeat split).
  unfold extractInsights. unfold bind at 1. unfold get.
  destruct (userIdRef (hook w)) as [userId |] eqn:Hid; [| eauto].
  destruct (bool_decide (length conversation < 2)); [eauto |].
  unfold try_catch. unfold bind at 1. unfold invoke.
  set (w1 := {| hook := hook w; localStorage := localStorage w;
                storageFull := storageFull w; log := _; clock := _ |}).
  assert (Hsame1 : same_session w w1) by (repeat split).
  assert (Hid1 : userIdRef (hook w1) = Some userId) by exact Hid.
  clearbody w1.
  destruct (settled (on_extract_insights backend _)) as [e | [d |] error];
    cbn [fst]; try (by eauto).
  destruct (success d); [| by eauto].
  destruct (insights d) as [ins |]; [| by eauto].
  destruct (evolve_loop backend satelliteId userId "preference" 0.6
              (default [] (preferences ins)) w1 Hid1)
    as (w2 & Hrun2 & _ & _ & Hsame2).
  assert (Hid2 : userIdRef (hook w2) = Some userId).
  { destruct Hsame2 as (-> & _). exact Hid1. }
  destruct (evolve_loop backend satelliteId userId "behavior" 0.5
              (default [] (patterns ins)) w2 Hid2)
    as (w3 & Hrun3 & _ & _ & Hsame3).
  assert (Hid3 : userIdRef (hook w3) = Some userId).
  { destruct Hsame3 as (-> & _). exact Hid2. }
  destruct (store_loop backend satelliteId sessionId uuid userId
              (default [] (facts ins)) w3 Hid3)
    as (w4 & Hrun4 & _ & _ & Hsame4).
  rewrite (bind_val _ _ _ _ _ Hrun2), (bind_val _ _ _ _ _ Hrun3), Hrun4.
  exists w4. split; [reflexivity |].
  eauto using same_session_trans.
Qed.

(** With an identity and at least two turns, when the remote answer is not
    a structured success (the promise rejects, the data is [null],
    [success] is false or [insights] is missing), [extractInsights] has made
    the one extraction call and nothing else: no evolution, no store, no
    change of state, no exception. *)
Theorem extractInsights_unsuccessful_is_inert
    (userId : string) (conversation : list Turn) (w : World Cells) :
  userIdRef (hook w) = Some userId →
  2 ≤ length conversation →
  insights_of (settled (extract_reply backend satelliteId userId conversation w))
    = None →
  ∃ w', extractInsights backend satelliteId sessionId uuid conversation w =
          (Val tt, w') ∧
    log w' = log w ++
      [Invoke "edge-agent-memory"
         (ReqExtractInsights userId satelliteId conversation)] ∧
    hook w' = hook w ∧
    localStorage w' = localStorage w.
Proof.
  intros Hid Hlen Hnone.
  unfold extractInsights, extract_reply in *. unfold bind at 1. unfold get.
  rewrite Hid, bool_decide_eq_false_2 by lia.
  unfold try_catch. unfold bind at 1. unfold invoke.
  destruct (settled (on_extract_insights backend _)) as [e | [d |] error];
    simpl in *; try (eexists; repeat split; done).
  destruct (success d); [| eexists; repeat split; done].
  destruct (insights d); [discriminate | eexists; repeat split; done].
Qed.

(** One call of the hook, whatever it is: it returns, and it writes the
    cache only when it is a rehydration (asked for, or started by the auth
    listener) on a store that can take the write. *)
Lemma perform_spec (c : Call) (w : World Cells) :
  ∃ w', act c w = (Val tt, w') ∧
    (is_mutation c = true ∨ writable w = false →
       localStorage w' = localStorage w) ∧
    (is_mutation c = true →
       userIdRef (hook w') = userIdRef (hook w) ∧
       isOnline (state (hook w')) = isOnline (state (hook w))).
Proof.
  assert (Hresync : ∀ (userId : string) (w0 : World Cells),
    localStorage w0 = localStorage w → storageFull w0 = storageFull w →
    ∃ w', rehydrateInternal backend satelliteId sessionId uuid userId w0 =
            (Val tt, w') ∧
      (writable w = false → localStorage w' = localStorage w)).
  { intros userId w0 Hls Hfull.
    assert (Hwr : cache_writable satelliteId w0 = writable w).
    { unfold writable, cache_writable. rewrite Hls, Hfull. reflexivity. }
    destruct (delivered (settled (rehydrate_reply backend satelliteId sessionId
                                    uuid userId w0))) as [d |] eqn:Hd.
    - destruct (rehydrateInternal_delivered backend satelliteId sessionId uuid
                  userId d w0 Hd) as (w' & Hrun & _ & _ & _ & _ & Hls').
      exists w'. split; [exact Hrun |]. intros Hno.
      rewrite Hls', Hwr, Hno. exact Hls.
    - destruct (rehydrateInternal_failed backend satelliteId sessionId uuid
                  userId w0 Hd) as (w' & Hrun & _ & _ & _ & _ & Hls').
      exists w'. split; [exact Hrun |]. intros _. congruence. }
  assert (Hload : ∀ w0 : World Cells, localStorage w0 = localStorage w →
    ∃ w', loadFromLocalStorage satelliteId w0 = (Val tt, w') ∧
      localStorage w' = localStorage w).
  { intros w0 Hls.
    destruct (loadFromLocalStorage_spec satelliteId w0) as (w' & Hrun & Hls' & _).
    exists w'. split; [exact Hrun | congruence]. }
  destruct c as [memory | k value type | updates | conversation | | user];
    unfold act, perform.
  - destruct (storeMemory_step backend satelliteId sessionId uuid memory w)
      as (w' & Hrun & Hst & Hid & Hls).
    exists w'. split; [exact Hrun |]. rewrite Hst. auto.
  - destruct (evolveKnowledge_spec backend satelliteId k value type w)
      as (w' & Hrun & Hid & Hls & Hcase).
    exists w'. split; [exact Hrun |]. split; [auto |]. intros _.
    split; [exact Hid |].
    destruct (userIdRef (hook w)); destruct Hcase as (_ & ->);
      [destruct (evolved_of _) |]; auto.
  - pose proof (updateSession_spec backend satelliteId sessionId uuid updates w)
      as Hspec.
    destruct (userIdRef (hook w)) as [userId |] eqn:Hid.
    + destruct Hspec as (w' & Hrun & _ & Hls & Hid' & Hst).
      exists w'. split; [exact Hrun |]. split; [auto |]. intros _.
      split; [congruence |].
      rewrite Hst. destruct (settled _); auto.
    + exists w. rewrite Hid. auto.
  - destruct (extractInsights_total conversation w)
      as (w' & Hrun & Hid & Honline & Hls).
    exists w'. split; [exact Hrun |]. split; [auto |]. intros _.
    split; [exact Hid | exact Honline].
  - unfold rehydrate, bind, get. simpl.
    destruct (userIdRef (hook w)) as [userId |].
    + destruct (Hresync userId w eq_refl eq_refl) as (w' & Hrun & Hls).
      exists w'. split; [exact Hrun |]. split; [| discriminate].
      intros [? | Hno]; [discriminate | auto].
    + destruct (Hload w eq_refl) as (w' & Hrun & Hls).
      exists w'. split; [exact Hrun |]. split; [auto | discriminate].
  - unfold onAuthStateChange. destruct user as [id |].
    + set (w1 := (set_userId (Some id) w).2).
      assert (Hset : set_userId (Some id) w = (Val tt, w1)) by reflexivity.
      rewrite (bind_val _ _ _ _ _ Hset).
      destruct (Hresync id w1 eq_refl eq_refl) as (w' & Hrun & Hls).
      exists w'. split; [exact Hrun |]. split; [| discriminate].
      intros [? | Hno]; [discriminate | auto].
    + set (w1 := (set_userId None w).2).
      assert (Hset : set_userId None w = (Val tt, w1)) by reflexivity.
      rewrite (bind_val _ _ _ _ _ Hset).
      destruct (Hload w1 eq_refl) as (w' & Hrun & Hls).
      exists w'. split; [exact Hrun |]. split; [auto | discriminate].
Qed.

(** A run of calls: every call returns. *)
Lemma run_returns (calls : list Call) (w : World Cells) :
  ∃ w', for_of calls act w = (Val tt, w').
Proof.
  revert w. induction calls as [| c rest IH]; intros w; simpl; [eauto |].
  destruct (perform_spec c w) as (w1 & Hrun & _).
  rewrite (bind_val _ _ _ _ _ Hrun). apply IH.
Qed.

(** No call of the hook ever raises: whatever the calls, the auth events
    and the answers of the remote function, each promise resolves and the
    next call runs. *)
Theorem hook_never_raises (calls : list Call) (w : World Cells) :
  (for_of calls act w).1 = Val tt.
Proof. destruct (run_returns calls w) as (w' & ->). reflexivity. Qed.

(** A run of mutations leaves the cache alone. *)
Lemma mutations_run (calls : list Call) (w : World Cells) :
  Forall (fun c => is_mutation c = true) calls →
  ∃ w', for_of calls act w = (Val tt, w') ∧
    localStorage w' = localStorage w.
Proof.
  revert w. induction calls as [| c rest IH]; intros w Hall; simpl; [eauto |].
  apply Forall_cons in Hall as (Hc & Hrest).
  destruct (perform_spec c w) as (w1 & Hrun & Hls & _).
  destruct (IH w1 Hrest) as (w' & Hrun' & Hls').
  exists w'. split; [rewrite (bind_val _ _ _ _ _ Hrun); exact Hrun' |].
  rewrite Hls', Hls by auto. reflexivity.
Qed.

(** [storeMemory], [evolveKnowledge], [updateSession] and [extractInsights]
    never write the local cache: after any run of them the cache holds what
    it held, and the identity and the online flag are unchanged. What they
    change lives in memory only. *)
Theorem mutations_never_persist (calls : list Call) (w : World Cells) :
  Forall (fun c => is_mutation c = true) calls →
  ∃ w', for_of calls act w = (Val tt, w') ∧
    localStorage w' = localStorage w ∧
    userIdRef (hook w') = userIdRef (hook w) ∧
    isOnline (state (hook w')) = isOnline (state (hook w)).
Proof.
  revert w. induction calls as [| c rest IH]; intros w Hall; simpl; [eauto |].
  apply Forall_cons in Hall as (Hc & Hrest).
  destruct (perform_spec c w) as (w1 & Hrun & Hls & Hkeep).
  destruct (Hkeep Hc) as (Hid & Honline).
  destruct (IH w1 Hrest) as (w' & Hrun' & Hls' & Hid' & Honline').
  exists w'. split; [rewrite (bind_val _ _ _ _ _ Hrun); exact Hrun' |].
  rewrite Hls', Hid', Honline', Hls by auto. auto.
Qed.

(** A cache that cannot be written stays as it is: when the entry of this
    satellite is a non-empty text that does not parse, or the store is full,
    no run of calls (rehydrations and sign-ins included) changes
    [localStorage]. Such an entry is never repaired, since saving starts by
    parsing it; only an entry that is the empty string is taken for no entry
    and overwritten. *)
Theorem unwritable_cache_never_changes (calls : list Call) (w : World Cells) :
  writable w = false →
  ∃ w', for_of calls act w = (Val tt, w') ∧
    localStorage w' = localStorage w ∧
    writable w' = false.
Proof.
  revert w. induction calls as [| c rest IH]; intros w Hno; simpl; [eauto |].
  destruct (perform_spec c w) as (w1 & Hrun & Hls & _).
  specialize (Hls (or_intror Hno)).
  assert (Hno1 : writable w1 = false).
  { pose proof (perform_keeps_quota c w) as Hq.
    rewrite Hrun in Hq. simpl in Hq.
    unfold writable, cache_writable in *. rewrite Hq, Hls. exact Hno. }
  destruct (IH w1 Hno1) as (w' & Hrun' & Hls' & Hno').
  exists w'. split; [rewrite (bind_val _ _ _ _ _ Hrun); exact Hrun' |].
  split; [congruence | exact Hno'].
Qed.

(** What is stored after a sync does not survive a reload. After a
    rehydration that delivers on a writable cache, any run of stores,
    evolutions, session updates and extractions, and then a load of the
    cache (a reload of the page without network, a sign-out): the memories,
    knowledge and session are those of the sync, and the records added in
    between are gone. *)
Theorem reload_restores_last_sync
    (userId : string) (d : RehydrateData) (calls : list Call)
    (w : World Cells) :
  userIdRef (hook w) = Some userId →
  delivered (settled (rehydrate_reply backend satelliteId sessionId uuid userId w))
    = Some d →
  writable w = true →
  Forall (fun c => is_mutation c = true) calls →
  ∃ w', (act CallRehydrate ;; for_of calls act ;;
         loadFromLocalStorage satelliteId) w = (Val tt, w') ∧
    memories (state (hook w')) = default [] (rh_context d ≫= ctx_memories) ∧
    knowledge (state (hook w')) = default ∅ (rh_context d ≫= ctx_knowledge) ∧
    session (state (hook w')) = rh_context d ≫= ctx_session ∧
    isOnline (state (hook w')) = false.
Proof.
  intros Hid Hd Hwr Hall.
  destruct (rehydrateInternal_delivered backend satelliteId sessionId uuid
              userId d w Hd) as (w1 & Hrun1 & _ & _ & _ & _ & Hls1).
  fold writable in Hls1. rewrite Hwr in Hls1.
  assert (Hact : act CallRehydrate w = (Val tt, w1)).
  { unfold act, perform, rehydrate, bind, get. simpl. rewrite Hid. exact Hrun1. }
  destruct (mutations_run calls w1 Hall) as (w2 & Hrun2 & Hls2).
  destruct (loadFromLocalStorage_spec satelliteId w2)
    as (w3 & Hrun3 & _ & _ & _ & Hst3).
  exists w3.
  split; [rewrite (bind_val _ _ _ _ _ Hact), (bind_val _ _ _ _ _ Hrun2);
          exact Hrun3 |].
  rewrite Hst3. unfold cached_snapshot.
  rewrite Hls2, Hls1, lookup_insert_eq. simpl.
  rewrite !spread_present. auto.
Qed.

End Usage.

Section Provenance.
Import EdgeMemory.
Variable backend : Backend.
Variables (satelliteId : string) (sessionId : option string) (uuid : string).

(** [rehydrate] without an identity fetches nothing and writes nothing: it
    only loads the cache. With a readable entry the three lists become the
    cached ones and the hook goes offline; with no entry, or a corrupt one,
    the call changes nothing at all (the hook even stays "online"). *)
Theorem rehydrate_anonymous_only_loads (w : World Cells) :
  userIdRef (hook w) = None →
  match cached_snapshot satelliteId w with
  | Some c =>
      ∃ w', rehydrate backend satelliteId sessionId uuid w = (Val tt, w') ∧
        log w' = log w ∧ localStorage w' = localStorage w ∧
        state (hook w') = load_cached c (state (hook w)) ∧
        userIdRef (hook w') = None
  | None => rehydrate backend satelliteId sessionId uuid w = (Val tt, w)
  end.
Proof.
  intros Hid.
  unfold rehydrate, cached_snapshot, bind, get. rewrite Hid.
  unfold loadFromLocalStorage, try_catch, bind, getItem.
  destruct (localStorage w !! cache_key satelliteId) as [[| | c] |]; simpl;
    try reflexivity.
  eexists. split; [reflexivity |]. simpl. auto.
Qed.

(** [storeMemory] reports to the remote function whenever a user is signed
    in, online or not: it makes exactly one [store_memory] invocation, which
    carries the record and the mode of the moment ("federated" when the
    hook is online, "sovereign" when it is not). Without an identity it
    makes none. *)
Theorem storeMemory_reports_when_signed_in (memory : MemoryInput)
    (w : World Cells) :
  ∃ w', storeMemory backend satelliteId sessionId uuid memory w = (Val tt, w') ∧
    log w' = log w ++
      match userIdRef (hook w) with
      | None => []
      | Some userId =>
          [Invoke "edge-agent-memory"
             (ReqStoreMemory userId satelliteId
                (currentSessionId sessionId uuid)
                (in_memoryType memory) (in_content memory)
                (in_importance memory) (in_topicTags memory)
                (if isOnline (state (hook w)) then "federated"
                 else "sovereign"))]
      end.
Proof.
  unfold storeMemory, bind, get.
  destruct (userIdRef (hook w)) as [userId |].
  - unfold try_catch, bind, invoke.
    destruct (settled (on_store_memory backend _));
      simpl; eexists; split; reflexivity.
  - simpl. eexists. split; [reflexivity |]. simpl. rewrite app_nil_r. reflexivity.
Qed.

(** [updateSession] can change the session and nothing else, and it never
    creates one: when no session exists locally, none exists afterwards,
    even if the remote function accepted the update. When the promise
    rejects, or nobody is signed in, the whole state is left as it was. In
    no case does the call raise or write the cache. *)
Theorem updateSession_never_creates_session (updates : SessionUpdate)
    (w : World Cells) :
  ∃ w', updateSession backend satelliteId sessionId uuid updates w = (Val tt, w') ∧
    localStorage w' = localStorage w ∧
    userIdRef (hook w') = userIdRef (hook w) ∧
    memories (state (hook w')) = memories (state (hook w)) ∧
    knowledge (state (hook w')) = knowledge (state (hook w)) ∧
    isOnline (state (hook w')) = isOnline (state (hook w)) ∧
    (session (state (hook w)) = None → session (state (hook w')) = None) ∧
    (∀ userId e,
       userIdRef (hook w) = Some userId →
       settled (sync_reply backend satelliteId sessionId uuid userId updates w)
         = Rejects e →
       state (hook w') = state (hook w)) ∧
    (userIdRef (hook w) = None → w' = w).
Proof.
  pose proof (updateSession_spec backend satelliteId sessionId uuid updates w)
    as Hspec.
  destruct (userIdRef (hook w)) as [userId |] eqn:Hid.
  - destruct Hspec as (w' & Hrun & _ & Hls & Hid' & Hst).
    exists w'. split; [exact Hrun |]. split; [exact Hls |].
    split; [exact Hid' |]. rewrite Hst.
    destruct (settled (sync_reply _ _ _ _ _ _ _)) as [e | data error] eqn:Hreply;
      simpl; repeat split; try done.
    + intros ->. reflexivity.
    + intros userId' e' [= <-]. rewrite Hreply. done.
  - exists w. split; [exact Hspec |]. repeat split; done.
Qed.

End Provenance.

(** * Further properties of useDualHemisphere *)

(** ** What the requests carry *)

Lemma contexts_sent_app (l k : list Event) :
  contexts_sent (l ++ k) = contexts_sent l ++ contexts_sent k.
Proof. apply omap_app. Qed.

Lemma sends_only_silent {S A} (context : list Turn) (m : M S A) :
  (∀ w, log (m w).2 = log w) → sends_only context m.
Proof.
  intros Hm w. exists []. rewrite Hm, app_nil_r. split; [reflexivity | constructor].
Qed.

Lemma sends_only_bind {S A B} (context : list Turn)
    (m : M S A) (k : A -> M S B) :
  sends_only context m → (∀ a, sends_only context (k a)) →
  sends_only context (bind m k).
Proof.
  intros Hm Hk w. unfold bind.
  destruct (Hm w) as (events & Hlog & Hall).
  destruct (m w) as [[a | e] w1]; simpl in *; [| eauto].
  destruct (Hk a w1) as (events' & Hlog' & Hall').
  exists (events ++ events'). rewrite Hlog', Hlog, (assoc_L (++)).
  split; [reflexivity |]. rewrite contexts_sent_app. apply Forall_app. auto.
Qed.

Lemma sends_only_try {S A} (context : list Turn)
    (m : M S A) (h : Exn -> M S A) :
  sends_only context m → (∀ e, sends_only context (h e)) →
  sends_only context (try_catch m h).
Proof.
  intros Hm Hh w. unfold try_catch.
  destruct (Hm w) as (events & Hlog & Hall).
  destruct (m w) as [[a | e] w1]; simpl in *; [eauto |].
  destruct (Hh e w1) as (events' & Hlog' & Hall').
  exists (events ++ events'). rewrite Hlog', Hlog, (assoc_L (++)).
  split; [reflexivity |]. rewrite contexts_sent_app. apply Forall_app. auto.
Qed.

Lemma sends_only_emit {S} (context : list Turn) (b : bool) :
  sends_only context (@emit S (SetIsSovereign b)).
Proof. intros w. exists [SetIsSovereign b]. split; [reflexivity | constructor]. Qed.

Lemma sends_only_invoke {S D} (context : list Turn) (backend : Backend)
    (ask : Backend -> list Event -> Reply D) (fn : string) (body : Request)
    (signal : option AbortController) :
  Forall (eq context) (contexts_sent [Invoke fn body]) →
  sends_only context (@invoke backend S D ask fn body signal).
Proof.
  intros Hbody w. exists [Invoke fn body]. split; [| exact Hbody].
  unfold invoke.
  destruct (match signal with Some c => _ | None => false end);
    [reflexivity |].
  destruct (settled _); reflexivity.
Qed.

(** Walks through a computation of the hook, request by request. *)
Ltac walk_requests :=
  repeat first
    [ progress intros
    | apply sends_only_bind
    | apply sends_only_try
    | apply sends_only_emit
    | apply sends_only_invoke; repeat constructor
    | apply sends_only_silent; intros; reflexivity
    | match goal with
      | |- sends_only _ (match ?x with _ => _ end) => destruct x
      | |- sends_only _ (if ?b then _ else _) => destruct b
      | |- sends_only _ (let '(_, _) := ?r in _) => destruct r
      | |- sends_only _ (deref ?data) => destruct data
      end ].

Section Outcome.
Import DualHemisphere.
Variable backend : Backend.
Variables (satelliteId : string) (sessionId : option string).
Variable randomUUID : nat -> string.

Let health := checkFederationHealth backend satelliteId.
Let sovereign := processSovereign backend satelliteId sessionId randomUUID.
Let run := process backend satelliteId sessionId randomUUID.
Let run_of := process_of backend satelliteId sessionId randomUUID.

(** The four statements that hand a query over to the sovereign path, in
    the callbacks of a render that saw the window [seen]. *)
Let hand_over (seen : list Turn) (query : string) (g : GovernanceMode)
  : M Cells ReasoningResult :=
  setIsSovereign true ;;
  sovereignResult <- processSovereign_of backend satelliteId sessionId
                       randomUUID seen query g ;;
  setLastResult sovereignResult ;;
  ret sovereignResult.

(** What a call that ends well, or badly, leaves in the cells, relative to
    the pending error, the window and the last result it started from. *)
Let settles (query : string) (pending : option Exn) (window : list Turn)
    (last : option ReasoningResult) (r : Res ReasoningResult) (after : Cells)
  : Prop :=
  (renderError after = pending ∨
   pending = None ∧ renderError after = Some TypeError) ∧
  (never_empty backend → renderError after = pending) ∧
  match r with
  | Val x =>
      lastResult after = Some x ∧
      num_truthy (r_confidence x) = true ∧
      match renderError after with
      | None =>
          ∃ answer, localMemory after = push_exchange query answer window ∧
                    str_or_empty answer = response x
      | Some _ => localMemory after = window
      end
  | Raise _ =>
      lastResult after = last ∧ localMemory after = window ∧
      isSovereign after = true
  end.

Lemma num_or_truthy (x : option float) (d : float) :
  num_truthy d = true → num_truthy (num_or x d) = true.
Proof.
  intros Hd. unfold num_or. destruct x as [f |]; [| exact Hd].
  destruct (num_truthy f) eqn:Hf; assumption.
Qed.

Lemma hand_over_settles (seen : list Turn) (query : string)
    (g : GovernanceMode) (w : World Cells) :
  ∃ r w', hand_over seen query g w = (r, w') ∧
    settles query (renderError (hook w)) (localMemory (hook w))
      (lastResult (hook w)) r (hook w').
Proof.
  unfold hand_over, processSovereign_of,
    setIsSovereign, setLastResult, setLocalMemory, session_or_fresh, bind,
    get, emit, modify, invoke, deref, member, ret, throw, settles.
  simpl.
  match goal with
  | |- context [settled (on_sovereign backend ?h)] =>
      destruct (settled (on_sovereign backend h)) as [e | [d |] [err |]] eqn:Hs
  end;
    destruct (renderError (hook w)) as [pending |] eqn:Herr;
    simpl; eexists _, _; (split; [reflexivity |]); simpl; rewrite ?Herr;
    repeat split; auto using num_or_truthy; eauto.
  intros Hfull.
  match type of Hs with
  | settled (on_sovereign backend ?h) = _ => specialize (Hfull h)
  end.
  rewrite Hs in Hfull. discriminate Hfull.
Qed.

(** [process], statement by statement: the health check, then either the
    hand-over, or the primary invocation followed by one of its three
    continuations. *)
Lemma process_cases (seen : list Turn) (query : string) (g : GovernanceMode)
    (w : World Cells) :
  ∃ w1, localMemory (hook w1) = localMemory (hook w) ∧
    lastResult (hook w1) = lastResult (hook w) ∧
    renderError (hook w1) = renderError (hook w) ∧
    (run_of seen query g w = hand_over seen query g w1 ∨
     (∃ d, run_of seen query g w =
             (setLocalMemory (fun prev =>
                Val (push_exchange query (Some (response (chat_result d))) prev)) ;;
              setLastResult (chat_result d) ;;
              ret (chat_result d)) w1) ∨
     run_of seen query g w =
       try_catch (hand_over seen query g) (fun _ => hand_over seen query g) w1).
Proof.
  destruct (checkFederationHealth_spec backend satelliteId w)
    as (wp & Hh & Hhook & _).
  unfold run_of, process_of. rewrite (bind_val _ _ _ _ _ Hh).
  destruct (negb (reports_failure _)); cbn [negb].
  - destruct (setIsSovereign_spec false wp) as (Hset & _ & _ & Hmem).
    assert (Hlast : lastResult (hook (switched false wp)) = lastResult (hook wp))
      by reflexivity.
    assert (Herr : renderError (hook (switched false wp)) = renderError (hook wp))
      by reflexivity.
    set (w2 := switched false wp) in *. clearbody w2.
    rewrite (bind_val _ _ _ _ _ Hset). unfold try_catch.
    match goal with
    | |- context [bind (session_or_fresh _ _) ?body] =>
        match body with
        | (fun sid => bind _ ?k) =>
            destruct (chat_step backend satelliteId sessionId randomUUID
                        query g k w2) as (Hchat & Hhookc & _)
        end
    end.
    cbv zeta in Hchat. rewrite Hchat. clear Hchat.
    set (wc := chatted backend satelliteId sessionId randomUUID query g w2) in *.
    clearbody wc.
    exists wc. rewrite Hhookc, Hmem, Hlast, Herr, Hhook.
    split; [reflexivity |]. split; [reflexivity |]. split; [reflexivity |].
    destruct (settled (chat_reply backend satelliteId sessionId randomUUID
                         query g w2)) as [e | [d |] [err |]]; cbv beta iota.
    + left. reflexivity.
    + right; right. reflexivity.
    + right; left. exists d.
      unfold deref, bind, ret, setLocalMemory, setLastResult, modify.
      reflexivity.
    + right; right. reflexivity.
    + left. rewrite (bind_raise (deref None) _ wc wc TypeError eq_refl).
      reflexivity.
  - exists wp. rewrite Hhook. auto.
Qed.

(** Every way [process] can end, in terms of what the caller gets and what
    the cells hold. The window that the callback closes over has no part in
    it: the updaters work on the window that React hands them. *)
Lemma process_of_settles (seen : list Turn) (query : string)
    (g : GovernanceMode) (w : World Cells) :
  ∃ r w', run_of seen query g w = (r, w') ∧
    settles query (renderError (hook w)) (localMemory (hook w))
      (lastResult (hook w)) r (hook w').
Proof.
  destruct (process_cases seen query g w) as (w1 & Hmem & Hlast & Herr & Hcase).
  rewrite <- Hmem, <- Hlast, <- Herr.
  destruct Hcase as [-> | [(d & ->) | ->]].
  - apply hand_over_settles.
  - unfold settles, setLocalMemory, setLastResult, bind, modify, ret. simpl.
    destruct (renderError (hook w1)) eqn:Hpending;
      eexists _, _; (split; [reflexivity |]); simpl; rewrite ?Hpending;
      repeat split; auto using num_or_truthy; eauto.
  - unfold try_catch.
    destruct (hand_over_settles seen query g w1) as (r1 & w2 & -> & Hs1).
    destruct r1 as [x | e]; [eauto |].
    destruct Hs1 as (He1 & Hn1 & Hlast2 & Hmem2 & _).
    destruct (hand_over_settles seen query g w2)
      as (r2 & w3 & -> & He2 & Hn2 & Hs2).
    exists r2, w3. split; [reflexivity |].
    rewrite Hmem2, Hlast2 in Hs2.
    split; [| split; [| exact Hs2]].
    + destruct He1 as [E1 | (E1 & E1')], He2 as [E2 | (E2 & E2')];
        try (left; congruence); try (right; split; congruence).
    + intros Hfull. rewrite Hn2, Hn1 by exact Hfull. reflexivity.
Qed.

Lemma process_settles (query : string) (g : GovernanceMode) (w : World Cells) :
  ∃ r w', run query g w = (r, w') ∧
    settles query (renderError (hook w)) (localMemory (hook w))
      (lastResult (hook w)) r (hook w').
Proof. exact (process_of_settles (localMemory (hook w)) query g w). Qed.


(** When [process] fails (which only the sovereign path can make it do),
    the last result and the value of the window are what they were before
    the call, and the hook is left in sovereign mode. The window is not
    untouched for all that: a sovereign invocation that resolves with
    neither data nor error has queued, before the result is read, an
    updater that raises when React runs it, and the component's next render
    raises. A pending error is never cleared; a new one is a [TypeError],
    and there is none when the sovereign function always answers with data
    or with an error. *)
Theorem process_failure_leaves_window (query : string) (g : GovernanceMode)
    (w w' : World Cells) (e : Exn) :
  run query g w = (Raise e, w') →
  localMemory (hook w') = localMemory (hook w) ∧
  lastResult (hook w') = lastResult (hook w) ∧
  isSovereign (hook w') = true ∧
  (renderError (hook w') = renderError (hook w) ∨
   renderError (hook w) = None ∧ renderError (hook w') = Some TypeError) ∧
  (never_empty backend → renderError (hook w') = renderError (hook w)).
Proof.
  intros Hrun.
  destruct (process_settles query g w) as (r0 & w0 & Hrun0 & Hs).
  unfold run in *. rewrite Hrun in Hrun0. injection Hrun0 as <- <-.
  destruct Hs as (Herr & Hfull & Hlast & Hwindow & Hflag). auto.
Qed.

(** The confidence of a returned result is never 0, -0 or NaN: a missing
    or falsy confidence in the answer is replaced by the path's default
    (0.8 on the primary path, 0.75 on the sovereign one). *)
Theorem process_confidence_is_never_falsy (query : string) (g : GovernanceMode)
    (w w' : World Cells) (r : ReasoningResult) :
  run query g w = (Val r, w') →
  PrimFloat.is_zero (r_confidence r) = false ∧
  PrimFloat.is_nan (r_confidence r) = false.
Proof.
  intros Hrun.
  destruct (process_settles query g w) as (r0 & w0 & Hrun0 & Hs).
  rewrite Hrun in Hrun0. injection Hrun0 as <- <-.
  destruct Hs as (_ & _ & _ & Htruthy & _).
  unfold num_truthy in Htruthy.
  apply negb_true_iff, orb_false_iff in Htruthy. exact Htruthy.
Qed.

(** The requests of [process] carry the window of the render that created
    the callback, whatever the cell holds when the call is made. *)
Lemma process_of_sends_only (seen : list Turn) (query : string)
    (g : GovernanceMode) :
  sends_only (slice_last 10 seen) (run_of seen query g).
Proof.
  unfold run_of, process_of, processSovereign_of, checkFederationHealth,
    setIsSovereign.
  cbv zeta. walk_requests.
Qed.

(** Clearing the window forgets every turn and touches nothing else. A
    query asked next through the callbacks of the following render sends an
    empty context to the sovereign function; asked through the callbacks of
    the render before the clearing (as a handler does that clears and asks
    in one go), it still sends the last ten turns of the window that was
    cleared. Either way the updater works on the cleared window: after an
    exchange that succeeds, the window holds that exchange alone. *)
Theorem clearLocalMemory_forgets (query : string) (g : GovernanceMode)
    (w : World Cells) :
  renderError (hook w) = None →
  let w0 := (clearLocalMemory w).2 in
  let before := localMemory (hook w) in
  clearLocalMemory w = (Val tt, w0) ∧
  localMemory (hook w0) = [] ∧
  lastResult (hook w0) = lastResult (hook w) ∧
  isSovereign (hook w0) = isSovereign (hook w) ∧
  log w0 = log w ∧
  (∃ events, log (run query g w0).2 = log w ++ events ∧
     Forall (eq []) (contexts_sent events)) ∧
  (∃ events, log (run_of before query g w0).2 = log w ++ events ∧
     Forall (eq (slice_last 10 before)) (contexts_sent events)) ∧
  ∀ r w', run query g w0 = (Val r, w') ∨ run_of before query g w0 = (Val r, w') →
    renderError (hook w') = None →
    ∃ answer,
      localMemory (hook w') =
        [ {| t_role := "user"; t_content := Some query |};
          {| t_role := "assistant"; t_content := answer |} ] ∧
      str_or_empty answer = response r.
Proof.
  intros Hclean w0 before.
  assert (Hw0 : hook w0 =
    {| lastResult := lastResult (hook w); isSovereign := isSovereign (hook w);
       localMemory := []; renderError := None |}).
  { unfold w0, clearLocalMemory, setLocalMemory, modify. simpl.
    rewrite Hclean. reflexivity. }
  assert (Hlog0 : log w0 = log w) by reflexivity.
  split; [reflexivity |].
  rewrite Hw0. cbn [localMemory lastResult isSovereign].
  repeat (split; [reflexivity |]).
  split; [| split].
  - destruct (process_of_sends_only (localMemory (hook w0)) query g w0)
      as (events & Hlog & Hall).
    change (run_of (localMemory (hook w0)) query g w0)
      with (run query g w0) in Hlog.
    rewrite Hw0 in Hall. cbn [localMemory] in Hall.
    exists events. rewrite <- Hlog0. split; [exact Hlog | exact Hall].
  - destruct (process_of_sends_only before query g w0) as (events & Hlog & Hall).
    exists events. rewrite <- Hlog0. split; [exact Hlog | exact Hall].
  - intros r w' Hrun Hafter.
    assert (Hs : settles query None [] (lastResult (hook w)) (Val r) (hook w')).
    { destruct Hrun as [Hrun | Hrun].
      - destruct (process_settles query g w0) as (r0 & w1 & Hrun0 & Hs).
        unfold run in *. rewrite Hrun in Hrun0. injection Hrun0 as <- <-.
        rewrite Hw0 in Hs. exact Hs.
      - destruct (process_of_settles before query g w0) as (r0 & w1 & Hrun0 & Hs).
        unfold run_of in *. rewrite Hrun in Hrun0. injection Hrun0 as <- <-.
        rewrite Hw0 in Hs. exact Hs. }
    destruct Hs as (_ & _ & _ & _ & Hwindow).
    rewrite Hafter in Hwindow. exact Hwindow.
Qed.


(** From the mounted hook, whatever the queries, their governance modes
    and the answers of the functions, and whether the calls succeed or fail,
    the window never holds more than eleven turns. *)
Theorem window_never_exceeds_eleven
    (queries : list (string * GovernanceMode)) :
  ∃ w', ask_each backend satelliteId sessionId randomUUID queries mount =
          (Val tt, w') ∧
    length (localMemory (hook w')) ≤ 11.
Proof.
  assert (Hinv : ∀ w : World Cells,
    length (localMemory (hook w)) ≤ 11 →
    ∃ w', ask_each backend satelliteId sessionId randomUUID queries w =
            (Val tt, w') ∧
      length (localMemory (hook w')) ≤ 11).
  { unfold ask_each.
    induction queries as [| [q g] rest IH]; intros w Hw; simpl; [eauto |].
    pose proof (process_window_bound backend satelliteId sessionId randomUUID
                  q g w) as Hstep.
    unfold bind at 1. unfold try_catch, bind at 1.
    destruct (process backend satelliteId sessionId randomUUID q g w)
      as [[r | e] w1]; simpl in *; apply IH; lia. }
  apply Hinv. simpl. lia.
Qed.

End Outcome.

(** * The gauges of the component *)

Section Gauges.
Import Core.

Lemma ltb_leb (x y : float) :
  PrimFloat.ltb x y = true → PrimFloat.leb x y = true.
Proof.
  rewrite ltb_spec, leb_spec. unfold SFltb, SFleb.
  destruct (SFcompare _ _) as [[] |]; done.
Qed.

(** [Math.min(hi, Math.max(lo, x))] lies between the two constants, or is
    [NaN]. *)
Lemma clamp_within (lo hi x : float) :
  PrimFloat.is_nan lo = false → PrimFloat.is_nan hi = false →
  PrimFloat.is_zero lo = false → PrimFloat.is_zero hi = false →
  within lo hi (Math_min hi lo) = true →
  within lo hi hi = true →
  within lo hi (Math_min hi (Math_max lo x)) = true.
Proof.
  intros Hlo Hhi Hzlo Hzhi Hbelow Habove.
  unfold Math_max. rewrite Hlo, Hzlo. simpl.
  destruct (PrimFloat.is_nan x) eqn:Hx.
  { unfold Math_min. rewrite Hhi. reflexivity. }
  destruct (PrimFloat.ltb lo x) eqn:Hlt; [| destruct (PrimFloat.ltb x lo); exact Hbelow].
  unfold Math_min. rewrite Hhi, Hx, Hzhi. simpl.
  destruct (PrimFloat.ltb hi x) eqn:Hgt; [exact Habove |].
  destruct (PrimFloat.ltb x hi) eqn:Hlt'; [| exact Habove].
  unfold within. rewrite Hx, (ltb_leb _ _ Hlt), (ltb_leb _ _ Hlt'). reflexivity.
Qed.

Lemma tick_in_range (prev : HemisphereState) (random : Draws) :
  gauges_in_range (tick prev random) = true.
Proof.
  unfold gauges_in_range, tick. cbn [alpha omega activity confidence].
  rewrite !clamp_within by reflexivity. reflexivity.
Qed.

(** Whatever the random draws, and however often the timer fires, the two
    activities stay between 40 and 100, the confidence of ALPHA between 0.6
    and 0.99 and that of OMEGA between 0.5 and 0.99 (a gauge can only leave
    its range by being [NaN]); and the reasoning labels of the two
    hemispheres never change. One firing brings any state into these
    ranges. *)
Theorem timer_keeps_gauges_in_range (draws : list Draws) :
  (∀ prev random, gauges_in_range (tick prev random) = true) ∧
  gauges_in_range (ticks draws initial) = true ∧
  reasoning (alpha (ticks draws initial)) = Analytical ∧
  reasoning (omega (ticks draws initial)) = Intuitive.
Proof.
  split; [exact tick_in_range |].
  assert (Hinv : ∀ s,
    gauges_in_range s = true →
    gauges_in_range (ticks draws s) = true ∧
    reasoning (alpha (ticks draws s)) = reasoning (alpha s) ∧
    reasoning (omega (ticks draws s)) = reasoning (omega s)).
  { induction draws as [| d rest IH]; intros s Hs; [auto |].
    destruct (IH (tick s d) (tick_in_range s d)) as (Hr & Ha & Ho).
    unfold ticks in *. simpl. rewrite Ha, Ho. auto. }
  apply (Hinv initial). reflexivity.
Qed.

End Gauges.

(** * The further properties at work *)

Lemma evolveKnowledge_anonymous_witness :
  ∃ w', (EdgeMemory.evolveKnowledge Scenario.unreachable "sat-1" "tea"
           (JBool false) "preference" ;;
         EdgeMemory.evolveKnowledge Scenario.unreachable "sat-1" "tea"
           (JBool true) "habit") Scenario.anonymous = (Val tt, w') ∧
    log w' = log Scenario.anonymous ∧
    knowledge (EdgeMemory.state (hook w')) !! "tea"%string =
      Some {| k_value := JBool true; k_confidence := Some 0.5%float;
              k_observations := 1; k_type := "habit" |} ∧
    (∀ other : string, other ≠ "tea"%string →
       knowledge (EdgeMemory.state (hook w')) !! other =
       knowledge (EdgeMemory.state (hook Scenario.anonymous)) !! other) ∧
    memories (EdgeMemory.state (hook w')) =
      memories (EdgeMemory.state (hook Scenario.anonymous)) ∧
    session (EdgeMemory.state (hook w')) =
      session (EdgeMemory.state (hook Scenario.anonymous)).
Proof.
  exact (evolveKnowledge_anonymous_overwrites Scenario.unreachable "sat-1"
           "tea" (JBool false) (JBool true) "preference" "habit"
           Scenario.anonymous eq_refl).
Defined.

Lemma evolveKnowledge_failure_witness :
  ∃ w', EdgeMemory.evolveKnowledge Scenario.failing "sat-1" "tea"
          (JBool true) "preference" Scenario.synced = (Val tt, w') ∧
    log w' = log Scenario.synced ++
      [Invoke "edge-agent-memory"
         (ReqEvolveKnowledge "user-1" "sat-1" "preference" "tea" (JBool true))] ∧
    hook w' = hook Scenario.synced ∧
    localStorage w' = localStorage Scenario.synced.
Proof.
  exact (evolveKnowledge_failure_keeps_state Scenario.failing "sat-1"
           "user-1" "tea" (JBool true) "preference" Scenario.synced
           eq_refl eq_refl).
Defined.

Lemma evolveKnowledge_success_witness :
  ∃ w', EdgeMemory.evolveKnowledge Scenario.evolving "sat-1" "tea"
          (JBool true) "preference" Scenario.synced = (Val tt, w') ∧
    knowledge (EdgeMemory.state (hook w')) !! "tea"%string =
      Some {| k_value := JBool true; k_confidence := Some 0.7%float;
              k_observations := 3; k_type := "preference" |} ∧
    (∀ other : string, other ≠ "tea"%string →
       knowledge (EdgeMemory.state (hook w')) !! other =
       knowledge (EdgeMemory.state (hook Scenario.synced)) !! other) ∧
    memories (EdgeMemory.state (hook w')) =
      memories (EdgeMemory.state (hook Scenario.synced)).
Proof.
  exact (evolveKnowledge_takes_last_confidence Scenario.evolving "sat-1"
           "user-1" "tea" (JBool true) "preference" Scenario.growing
           Scenario.synced eq_refl eq_refl).
Defined.

(** Saving memories alone over the entry of a sync: the memories are the
    saved ones, the session is still that of the sync. *)
Lemma save_then_load_witness :
  EdgeMemory.cache_writable "sat-1" Scenario.synced_then_stored = true ∧
  ∃ w', (EdgeMemory.saveToLocalStorage "sat-1" Scenario.only_memories ;;
         EdgeMemory.loadFromLocalStorage "sat-1") Scenario.synced_then_stored =
          (Val tt, w') ∧
    memories (EdgeMemory.state (hook w')) = [Scenario.remembered] ∧
    knowledge (EdgeMemory.state (hook w')) = ∅ ∧
    session (EdgeMemory.state (hook w')) = Some Scenario.a_session ∧
    isOnline (EdgeMemory.state (hook w')) = false.
Proof.
  split; [reflexivity |].
  destruct (save_then_load_round_trip "sat-1" Scenario.only_memories
              Scenario.synced_then_stored eq_refl)
    as (w' & Hrun & _ & Hm & Hk & Hs & Ho).
  exists w'. repeat split; assumption.
Defined.

Lemma extractInsights_unsuccessful_witness :
  ∃ w', EdgeMemory.extractInsights Scenario.restoring "sat-1" None "uuid-0"
          Scenario.talk Scenario.synced = (Val tt, w') ∧
    log w' = log Scenario.synced ++
      [Invoke "edge-agent-memory"
         (ReqExtractInsights "user-1" "sat-1" Scenario.talk)] ∧
    hook w' = hook Scenario.synced ∧
    localStorage w' = localStorage Scenario.synced.
Proof.
  exact (extractInsights_unsuccessful_is_inert Scenario.restoring "sat-1" None
           "uuid-0" "user-1" Scenario.talk Scenario.synced
           eq_refl (le_n 2) eq_refl).
Defined.

Lemma mutations_never_persist_witness :
  ∃ w', for_of Scenario.some_mutations
          (EdgeMemory.perform (Scenario.extracting Scenario.three_facts)
             "sat-1" None "uuid-0") Scenario.synced = (Val tt, w') ∧
    localStorage w' = localStorage Scenario.synced ∧
    EdgeMemory.userIdRef (hook w') = EdgeMemory.userIdRef (hook Scenario.synced) ∧
    isOnline (EdgeMemory.state (hook w')) =
      isOnline (EdgeMemory.state (hook Scenario.synced)).
Proof.
  apply (mutations_never_persist (Scenario.extracting Scenario.three_facts)
           "sat-1" None "uuid-0" Scenario.some_mutations Scenario.synced).
  repeat constructor.
Defined.

Lemma unwritable_cache_witness :
  ∃ w', for_of Scenario.a_busy_day
          (EdgeMemory.perform Scenario.restoring "sat-1" None "uuid-0")
          Scenario.corrupted = (Val tt, w') ∧
    localStorage w' = localStorage Scenario.corrupted ∧
    EdgeMemory.cache_writable "sat-1" w' = false.
Proof.
  exact (unwritable_cache_never_changes Scenario.restoring "sat-1" None
           "uuid-0" Scenario.a_busy_day Scenario.corrupted eq_refl).
Defined.

Lemma reload_restores_witness :
  ∃ w', (EdgeMemory.perform (Scenario.extracting Scenario.three_facts)
           "sat-1" None "uuid-0" EdgeMemory.CallRehydrate ;;
         for_of Scenario.some_mutations
           (EdgeMemory.perform (Scenario.extracting Scenario.three_facts)
              "sat-1" None "uuid-0") ;;
         EdgeMemory.loadFromLocalStorage "sat-1") Scenario.signed_in =
          (Val tt, w') ∧
    memories (EdgeMemory.state (hook w')) = [Scenario.remembered] ∧
    knowledge (EdgeMemory.state (hook w')) = ∅ ∧
    session (EdgeMemory.state (hook w')) = Some Scenario.a_session ∧
    isOnline (EdgeMemory.state (hook w')) = false.
Proof.
  apply (reload_restores_last_sync (Scenario.extracting Scenario.three_facts)
           "sat-1" None "uuid-0" "user-1" Scenario.restored
           Scenario.some_mutations Scenario.signed_in eq_refl eq_refl eq_refl).
  repeat constructor.
Defined.

(** Signing out after a sync: the identity is gone, the data is not. *)
Example sign_out_after_sync :
  let w' := (EdgeMemory.onAuthStateChange Scenario.restoring "sat-1" None
               "uuid-0" None Scenario.synced_then_stored).2 in
  EdgeMemory.userIdRef (hook w') = None ∧
  memories (EdgeMemory.state (hook w')) = [Scenario.remembered] ∧
  session (EdgeMemory.state (hook w')) = Some Scenario.a_session.
Proof. vm_compute. auto. Qed.

Lemma rehydrate_anonymous_witness :
  EdgeMemory.rehydrate Scenario.restoring "sat-1" None "uuid-0"
    Scenario.anonymous = (Val tt, Scenario.anonymous).
Proof.
  exact (rehydrate_anonymous_only_loads Scenario.restoring "sat-1" None
           "uuid-0" Scenario.anonymous eq_refl).
Defined.


(** A call that fails because nothing can be reached leaves no updater
    behind. A call that fails because the sovereign function resolves with
    neither data nor error leaves one: the window keeps its value, and the
    next render raises. *)
Lemma process_failure_witness :
  let ran := DualHemisphere.process Scenario.unreachable "sat-1" None
               Scenario.no_uuid "hello" Standard DualHemisphere.mount in
  let emptied := DualHemisphere.process Scenario.hollow "sat-1" None
                   Scenario.no_uuid "hello" Standard
                   Scenario.after_one_exchange in
  (DualHemisphere.localMemory (hook ran.2) = [] ∧
   DualHemisphere.lastResult (hook ran.2) = None ∧
   DualHemisphere.isSovereign (hook ran.2) = true ∧
   DualHemisphere.renderError (hook ran.2) = None) ∧
  (emptied.1 = Raise TypeError ∧
   DualHemisphere.localMemory (hook emptied.2) =
     DualHemisphere.localMemory (hook Scenario.after_one_exchange) ∧
   DualHemisphere.lastResult (hook emptied.2) =
     DualHemisphere.lastResult (hook Scenario.after_one_exchange) ∧
   DualHemisphere.isSovereign (hook emptied.2) = true ∧
   DualHemisphere.renderError (hook emptied.2) = Some TypeError).
Proof.
  intros ran emptied. split.
  - assert (Hrun : DualHemisphere.process Scenario.unreachable "sat-1" None
                     Scenario.no_uuid "hello" Standard DualHemisphere.mount =
                   (Raise (FetchError "Failed to fetch"), ran.2))
      by (vm_compute; reflexivity).
    destruct (process_failure_leaves_window _ _ _ _ _ _ _ _ _ Hrun)
      as (Hwindow & Hlast & Hflag & _ & Hfull).
    split; [exact Hwindow |]. split; [exact Hlast |]. split; [exact Hflag |].
    apply Hfull. intros history. reflexivity.
  - assert (Hrun : DualHemisphere.process Scenario.hollow "sat-1" None
                     Scenario.no_uuid "hello" Standard
                     Scenario.after_one_exchange =
                   (Raise TypeError, emptied.2))
      by (vm_compute; reflexivity).
    destruct (process_failure_leaves_window _ _ _ _ _ _ _ _ _ Hrun)
      as (Hwindow & Hlast & Hflag & _).
    split; [vm_compute; reflexivity |].
    split; [exact Hwindow |]. split; [exact Hlast |]. split; [exact Hflag |].
    vm_compute. reflexivity.
Defined.

(** After one exchange the window is cleared and a second query is asked
    while the federation is down: through the callbacks of the following
    render the sovereign request carries no turn, through those of the
    render before the clearing it carries the two turns that were
    cleared. *)
Lemma clearLocalMemory_witness :
  let cleared := (DualHemisphere.clearLocalMemory Scenario.after_one_exchange).2 in
  let before := DualHemisphere.localMemory (hook Scenario.after_one_exchange) in
  before =
    [ {| t_role := "user"; t_content := Some "first"%string |};
      {| t_role := "assistant"; t_content := Some "from the edge"%string |} ] ∧
  DualHemisphere.localMemory (hook cleared) = [] ∧
  contexts_sent (drop (length (log Scenario.after_one_exchange))
    (log (DualHemisphere.process Scenario.isolated "sat-1" None Scenario.no_uuid
            "second" Standard cleared).2)) = [[]] ∧
  contexts_sent (drop (length (log Scenario.after_one_exchange))
    (log (DualHemisphere.process_of Scenario.isolated "sat-1" None
            Scenario.no_uuid before "second" Standard cleared).2)) = [before].
Proof.
  intros cleared before.
  assert (Hclean : DualHemisphere.renderError (hook Scenario.after_one_exchange)
                   = None) by (vm_compute; reflexivity).
  destruct (clearLocalMemory_forgets Scenario.isolated "sat-1" None
              Scenario.no_uuid "second" Standard Scenario.after_one_exchange
              Hclean)
    as (_ & Hempty & _ & _ & _ & (fresh & Hfresh & Hall) & (stale & Hstale & Hall') & _).
  split; [vm_compute; reflexivity |]. split; [exact Hempty |].
  split.
  - fold cleared in Hfresh. rewrite Hfresh, drop_app_length.
    assert (Hone : length (contexts_sent fresh) = 1).
    { apply (f_equal (fun l => length (contexts_sent
               (drop (length (log Scenario.after_one_exchange)) l)))) in Hfresh.
      rewrite drop_app_length in Hfresh. rewrite <- Hfresh.
      vm_compute. reflexivity. }
    destruct (contexts_sent fresh) as [| c [| ? ?]]; try discriminate Hone.
    apply Forall_cons in Hall as (<- & _). reflexivity.
  - fold cleared before in Hstale. rewrite Hstale, drop_app_length.
    assert (Hone : length (contexts_sent stale) = 1).
    { apply (f_equal (fun l => length (contexts_sent
               (drop (length (log Scenario.after_one_exchange)) l)))) in Hstale.
      rewrite drop_app_length in Hstale. rewrite <- Hstale.
      vm_compute. reflexivity. }
    destruct (contexts_sent stale) as [| c [| ? ?]]; try discriminate Hone.
    apply Forall_cons in Hall' as (<- & _).
    fold before. vm_compute. reflexivity.
Defined.

Lemma process_confidence_witness :
  let r := DualHemisphere.chat_result (Scenario.answer "from the federation") in
  PrimFloat.is_zero (r_confidence r) = false ∧
  PrimFloat.is_nan (r_confidence r) = false.
Proof.
  exact (process_confidence_is_never_falsy Scenario.federated "sat-1" None
           Scenario.no_uuid "hello" Standard DualHemisphere.mount _ _ eq_refl).
Defined.
